(** * The document ingestion and retrieval core of the RAG tool server

    A shallow embedding of [app/mcp/rag_mcp.py], [app/rag/retrieval.py],
    [app/rag/chunking.py] and [app/rag/file_handle.py].

    Python integers are [Z]; Python [str] values are [string], one [ascii]
    per code point (code points below 256); exceptions are values of [exn]
    and a call that may raise returns a [result].  The third-party libraries
    the code calls (the PDF reader, the two text splitters, the JSON parser,
    the URL parser, the HTTP client and the vector store) are the variables
    of the sections below. *)

From Stdlib Require Import ZArith QArith List String Ascii Bool Lia.
From Stdlib Require Import Permutation DecimalString DecimalNat DecimalFacts.
Import ListNotations.

Set Warnings "-register-all".

Local Open Scope string_scope.
Local Open Scope Z_scope.

(** ** Python values the code relies on *)

Module Py.

(** Exceptions by class; [ValueError] carries its message. *)
Inductive exn : Type :=
| TimeoutError
| IndexError
| ValueError (msg : string)
| OtherError (cls : string).

Inductive result (A : Type) : Type :=
| Ok (a : A)
| Raise (e : exn).
Arguments Ok {A} a.
Arguments Raise {A} e.

Definition bind {A B : Type} (r : result A) (k : A -> result B) : result B :=
  match r with
  | Ok a => k a
  | Raise e => Raise e
  end.

(** [a / b] on integers is true division; the quotient is kept exact. *)
Definition true_div (a b : Z) : Q :=
  match b with
  | Zpos p => a # p
  | Zneg p => (- a) # p
  | Z0 => 0 # 1
  end.

(** [int(x)] truncates toward zero. *)
Definition int (x : Q) : Z := Z.quot (Qnum x) (Zpos (Qden x)).

(** *** Characters and whitespace *)

(** [str.isspace] on one code point, which is also what [\s] matches in a
    [str] pattern: TAB..CR, FS..US, SPACE, NEL and NBSP. *)
Definition isspace (c : ascii) : bool :=
  let n := nat_of_ascii c in
  (((9 <=? n) && (n <=? 13)) || ((28 <=? n) && (n <=? 32))
   || (n =? 133) || (n =? 160))%nat.

Definition newline : ascii := "010"%char.
Definition space : ascii := " "%char.
Definition dot : ascii := "."%char.
Definition slash : ascii := "/"%char.

(** [s.replace(a, b)] for one-character [a] and [b]. *)
Fixpoint replace (a b : ascii) (s : string) : string :=
  match s with
  | EmptyString => EmptyString
  | String c r => String (if Ascii.eqb c a then b else c) (replace a b r)
  end.

(** [re.sub(r"\s+", " ", s)]: every maximal run of whitespace becomes one
    space.  [in_run] records that the previous character was whitespace. *)
Fixpoint sub_ws (in_run : bool) (s : string) : string :=
  match s with
  | EmptyString => EmptyString
  | String c r =>
      if isspace c
      then (if in_run then sub_ws true r else String space (sub_ws true r))
      else String c (sub_ws false r)
  end.

Fixpoint lstrip (s : string) : string :=
  match s with
  | EmptyString => EmptyString
  | String c r => if isspace c then lstrip r else s
  end.

Fixpoint rstrip (s : string) : string :=
  match s with
  | EmptyString => EmptyString
  | String c r =>
      match rstrip r with
      | EmptyString => if isspace c then EmptyString else String c EmptyString
      | r' => String c r'
      end
  end.

(** [s.strip()] *)
Definition strip (s : string) : string := rstrip (lstrip s).

(** [s.split(sep, 1)] for a one-character separator: the parts before and
    after the first [sep], or the whole string alone when there is none. *)
Fixpoint split1 (sep : ascii) (s : string) : string * option string :=
  match s with
  | EmptyString => (EmptyString, None)
  | String c r =>
      if Ascii.eqb c sep then (EmptyString, Some r)
      else let '(h, t) := split1 sep r in (String c h, t)
  end.

(** [s.endswith(suffix)] *)
Definition endswith (s suffix : string) : bool :=
  let n := String.length s in
  let m := String.length suffix in
  (m <=? n)%nat && String.eqb (substring (n - m) m s) suffix.

(** [os.path.basename] (POSIX): what follows the last slash. *)
Fixpoint basename (p : string) : string :=
  match p with
  | EmptyString => EmptyString
  | String c r =>
      if existsb (Ascii.eqb slash) (list_ascii_of_string r) then basename r
      else if Ascii.eqb c slash then r else p
  end.

(** [c in s] for a character. *)
Definition contains (c : ascii) (s : string) : bool :=
  existsb (Ascii.eqb c) (list_ascii_of_string s).

(** Two adjacent spaces somewhere in [s]. *)
Fixpoint double_space (s : string) : bool :=
  match s with
  | String a ((String b _) as t) =>
      (Ascii.eqb a space && Ascii.eqb b space) || double_space t
  | _ => false
  end.

(** Only whitespace, or nothing at all. *)
Fixpoint blank (s : string) : bool :=
  match s with
  | EmptyString => true
  | String c r => isspace c && blank r
  end.

(** The only whitespace character in [s] is the plain space. *)
Fixpoint only_plain_spaces (s : string) : bool :=
  match s with
  | EmptyString => true
  | String c r => (negb (isspace c) || Ascii.eqb c space) && only_plain_spaces r
  end.

Definition starts_with_space (s : string) : bool :=
  match s with
  | String c _ => Ascii.eqb c space
  | EmptyString => false
  end.

(** [f"{n}"] for a non-negative integer. *)
Definition format_nat (n : nat) : string :=
  NilZero.string_of_uint (Nat.to_uint n).

End Py.

Import Py.

(** ** [app/mcp/rag_mcp.py]: the clamp on [k] *)

(** [int((k + 20 - abs(k-20)) / 2) if k > 0 else 1] *)
Definition effective_k (k : Z) : Z :=
  if 0 <? k then int (true_div (k + 20 - Z.abs (k - 20)) 2) else 1.

(** ** Records shared by ingestion and retrieval *)

(** A Python [dict] with string keys and values, in insertion order. *)
Definition dict : Type := list (string * string).

Fixpoint dict_get (key : string) (d : dict) : option string :=
  match d with
  | [] => None
  | (k, v) :: rest => if String.eqb k key then Some v else dict_get key rest
  end.

(** The [{"text": ..., "metadata": ...}] dictionaries that both the chunkers
    and the retrieval call build. *)
Record Entry (M : Type) : Type := mkEntry { text : string; metadata : M }.
Arguments mkEntry {M} text metadata.
Arguments text {M} e.
Arguments metadata {M} e.

(** ** [app/rag/retrieval.py] and [app/mcp/rag_mcp.py] *)

(** A langchain [Document] as the vector store returns it. *)
Record Document : Type :=
  mkDocument { page_content : string; doc_metadata : dict }.

(** What awaiting a coroutine gives: how long it ran, in seconds, and how it
    ended. *)
Record awaited (A : Type) : Type :=
  mkAwaited { elapsed : Q; outcome : result A }.
Arguments mkAwaited {A} elapsed outcome.
Arguments elapsed {A} a.
Arguments outcome {A} a.

(** [asyncio.wait_for(aw, timeout)]: the awaitable's own outcome unless it
    runs longer than [timeout], which raises [TimeoutError]. *)
Definition wait_for {A : Type} (aw : awaited A) (timeout : Q) : result A :=
  if Qle_bool (elapsed aw) timeout then outcome aw else Raise TimeoutError.

Section Retrieval.

(** [vector_store.similarity_search(query, k, filter=...)] run in the
    executor. *)
Variable similarity_search :
  string -> Z -> option dict -> awaited (list Document).

Definition tag_filter (tag : option string) : option dict :=
  match tag with
  | Some t => Some [("tag", t)]
  | None => None
  end.

Definition retrieved_text (item : Document) : Entry dict :=
  mkEntry (page_content item) (doc_metadata item).

Definition retrieve_relevant_documents
    (query : string) (k : Z) (tag : option string) : awaited (list (Entry dict)) :=
  let filter_dict := tag_filter tag in
  let run := similarity_search query k filter_dict in
  mkAwaited (elapsed run)
    (bind (outcome run) (fun documents => Ok (map retrieved_text documents))).

Definition retrieval
    (query : string) (k : Z) (tag : option string) : result (list (Entry dict)) :=
  let k := effective_k k in
  match wait_for (retrieve_relevant_documents query k tag) 5 with
  | Raise TimeoutError => Ok []
  | results => results
  end.

(** The store's side of the filter: a returned document carries, under every
    key of the filter, exactly the filter's value. *)
Definition honours_filter : Prop :=
  forall query k flt docs d key v,
    outcome (similarity_search query k (Some flt)) = Ok docs ->
    In d docs -> In (key, v) flt ->
    dict_get key (doc_metadata d) = Some v.

End Retrieval.

(** A vector store over a fixed table: the rows that match the filter by
    equality, at most [k] of them, after [delay] seconds. *)
Definition matches_filter (flt : option dict) (d : Document) : bool :=
  match flt with
  | None => true
  | Some f =>
      forallb (fun kv =>
        match dict_get (fst kv) (doc_metadata d) with
        | Some v => String.eqb v (snd kv)
        | None => false
        end) f
  end.

Definition table_search (table : list Document) (delay : Q)
    (query : string) (k : Z) (flt : option dict) : awaited (list Document) :=
  mkAwaited delay (Ok (firstn (Z.to_nat k) (filter (matches_filter flt) table))).

Definition demo_table : list Document :=
  [ mkDocument "MCP is a protocol" [("source", "md"); ("location", "ROOT"); ("tag", "A")];
    mkDocument "Tickets are issues" [("source", "pdf"); ("location", "Page 1"); ("tag", "B")];
    mkDocument "Tools are functions" [("source", "md"); ("location", "Intro"); ("tag", "A")];
    mkDocument "Tagged almost alike" [("source", "md"); ("location", "Intro"); ("tag", "AB")] ].

(** ** [app/rag/file_handle.py] *)

(** Raw file content. *)
Definition bytes : Type := string.

(** Finite floats are [m * 2^e]. *)
Inductive pyfloat : Type :=
| FFinite (m e : Z)
| FInf (negative : bool)
| FNaN.

(** What [json.loads] returns. *)
Inductive json : Type :=
| JNull
| JBool (b : bool)
| JInt (n : Z)
| JFloat (f : pyfloat)
| JStr (s : string)
| JList (l : list json)
| JDict (d : list (string * json)).

(** [k in item] and [item[k]] together. *)
Fixpoint json_get (key : string) (d : list (string * json)) : option json :=
  match d with
  | [] => None
  | (k, v) :: rest => if String.eqb k key then Some v else json_get key rest
  end.

(** Truth value of an object, as [not] and [if] test it. *)
Definition truthy (v : json) : bool :=
  match v with
  | JNull => false
  | JBool b => b
  | JInt n => negb (n =? 0)
  | JFloat (FFinite m _) => negb (m =? 0)
  | JFloat _ => true
  | JStr s => negb (String.eqb s "")
  | JList l => match l with [] => false | _ => true end
  | JDict d => match d with [] => false | _ => true end
  end.

(** The members of the two set literals, as written. *)
Definition QUESTION_KEYS : list string := ["question"; "q"; "query"].
Definition ANSWER_KEYS : list string := ["answer"; "a"; "response"].

(** [next((item[k] for k in keys if k in item), None)], [keys] being the
    order in which the set is iterated. *)
Fixpoint next_present (keys : list string) (item : list (string * json)) : json :=
  match keys with
  | [] => JNull
  | k :: rest =>
      match json_get k item with
      | Some v => v
      | None => next_present rest item
      end
  end.

Section FileHandle.

(** [str(v)] of a value that is not already a string. *)
Variable repr : json -> string.

(** The order in which iterating each of the two sets yields its members.
    A [set] of strings has no order of its own: it follows the hashes of
    the strings, which change from one interpreter run to the next. *)
Variable question_iter answer_iter : list string.

(** [urlparse(url).path], or the [ValueError] that [urlparse] raises on a
    URL it cannot take apart. *)
Variable urlparse_path : string -> result string.

Definition str (v : json) : string :=
  match v with
  | JStr s => s
  | _ => repr v
  end.

Definition extract_qa (item : list (string * json)) : option (string * string) :=
  let q := next_present question_iter item in
  let a := next_present answer_iter item in
  if negb (truthy q) || negb (truthy a) then None
  else Some (strip (str q), strip (str a)).

Definition extract_source_from_url (url : string) : result string :=
  bind (urlparse_path url) (fun path =>
  let filename := basename path in
  match split1 dot filename with
  | (_, Some rest) => Ok rest
  | (_, None) => Raise IndexError
  end).

End FileHandle.

(** ** [app/rag/chunking.py] *)

Record Metadata : Type :=
  mkMetadata { source : string; location : string; tag : string }.

Definition Chunk : Type := Entry Metadata.

(** [re.sub(r"\s+", " ", chunk.replace("\n", " ")).strip()] *)
Definition clean_text (chunk : string) : string :=
  strip (sub_ws false (replace newline space chunk)).

(** [h for h in location_parts if h] *)
Definition present_headers (parts : list (option string)) : list string :=
  flat_map (fun h =>
    match h with
    | Some s => if String.eqb s "" then [] else [s]
    | None => []
    end) parts.

Section Chunking.

Variable repr : json -> string.
Variable question_iter answer_iter : list string.
Variable urlparse_path : string -> result string.

(** The pages of [PdfReader(BytesIO(file_bytes))], each as the text that
    [extract_text()] gives for it.  An error of the reader or of an
    extraction is taken here in one step, ahead of the splitter's. *)
Variable pdf_pages : bytes -> result (list string).

(** [RecursiveCharacterTextSplitter(chunk_size, chunk_overlap)] and its
    [split_text]. *)
Variable new_splitter : Z -> Z -> result (string -> list string).

(** [file_bytes.decode("utf-8", errors="ignore")] *)
Variable decode_ignore : bytes -> string.

(** [MarkdownHeaderTextSplitter(...).split_text]: sections with their
    headings under the keys h1..h4. *)
Variable md_header_split : string -> list Document.

(** [json.loads(file_bytes.decode("utf-8"))]: the value, or the text of the
    exception. *)
Variable json_loads : bytes -> string + json.

(** [await read_file_from_url(url)] *)
Variable read_file_from_url : string -> result bytes.

Fixpoint pdf_documents (split_text : string -> list string)
    (tag source : string) (page_idx : nat) (pages : list string) : list Chunk :=
  match pages with
  | [] => []
  | text :: rest =>
      (if String.eqb text "" then []
       else
         map (fun chunk =>
                mkEntry (clean_text chunk)
                  (mkMetadata source ("Page " ++ format_nat (page_idx + 1)) tag))
             (split_text text))
      ++ pdf_documents split_text tag source (S page_idx) rest
  end.

Definition chunking_pdf (file_bytes : bytes) (tag source : string)
    (chunk_size chunk_overlap : Z) : result (list Chunk) :=
  bind (pdf_pages file_bytes) (fun pages =>
  bind (new_splitter chunk_size chunk_overlap) (fun split_text =>
  Ok (pdf_documents split_text tag source 0 pages))).

Definition md_location (headers : dict) : string :=
  let location_parts :=
    [dict_get "h1" headers; dict_get "h2" headers;
     dict_get "h3" headers; dict_get "h4" headers] in
  String.concat " > " (present_headers location_parts).

Fixpoint md_documents (split_text : string -> list string)
    (tag source : string) (md_docs : list Document) : list Chunk :=
  match md_docs with
  | [] => []
  | doc :: rest =>
      let section_text := strip (page_content doc) in
      (if String.eqb section_text "" then []
       else
         let sub_chunks := split_text section_text in
         let location := md_location (doc_metadata doc) in
         map (fun chunk =>
                mkEntry (clean_text chunk)
                  (mkMetadata source
                     (if String.eqb location "" then "ROOT" else location) tag))
             sub_chunks)
      ++ md_documents split_text tag source rest
  end.

Definition chunking_md (file_bytes : bytes) (tag source : string)
    (chunk_size chunk_overlap : Z) : result (list Chunk) :=
  let text := decode_ignore file_bytes in
  let md_docs := md_header_split text in
  bind (new_splitter chunk_size chunk_overlap) (fun split_text =>
  Ok (md_documents split_text tag source md_docs)).

(** The chunk of one item, if it gives one. *)
Definition json_document (tag source : string) (idx : nat) (item : json)
    : list Chunk :=
  match item with
  | JDict d =>
      match extract_qa repr question_iter answer_iter d with
      | Some (question, answer) =>
          [mkEntry ("Question: " ++ question ++ String newline ("Answer: " ++ answer))
             (mkMetadata source ("Q&A #" ++ format_nat idx) tag)]
      | None => []
      end
  | _ => []
  end.

(** [for idx, item in enumerate(items, start=idx)] *)
Fixpoint json_documents (tag source : string) (idx : nat) (items : list json)
    : list Chunk :=
  match items with
  | [] => []
  | item :: rest =>
      json_document tag source idx item ++ json_documents tag source (S idx) rest
  end.

Definition json_items (data : json) : result (list json) :=
  match data with
  | JDict d =>
      match json_get "qa" d with
      | Some (JList l) => Ok l
      | _ => Ok [data]
      end
  | JList l => Ok l
  | _ => Raise (ValueError "JSON must be dict or list[dict]")
  end.

Definition chunking_json (file_bytes : bytes) (tag source : string)
    : result (list Chunk) :=
  match json_loads file_bytes with
  | inl e => Raise (ValueError ("Invalid JSON file: " ++ e))
  | inr data =>
      bind (json_items data) (fun items =>
      match json_documents tag source 1 items with
      | [] => Raise (ValueError "No valid Q&A found in JSON")
      | documents => Ok documents
      end)
  end.

(** Returns [None] where the Python function falls off its end. *)
Definition chunking_file (tag file_path : string) (chunk_size chunk_overlap : Z)
    : result (option (list Chunk)) :=
  bind (read_file_from_url file_path) (fun file_bytes =>
  bind (extract_source_from_url urlparse_path file_path) (fun source =>
  if endswith file_path ".pdf" then
    bind (chunking_pdf file_bytes tag source chunk_size chunk_overlap)
         (fun file_documents => Ok (Some file_documents))
  else if endswith file_path ".md" then
    bind (chunking_md file_bytes tag source chunk_size chunk_overlap)
         (fun file_documents => Ok (Some file_documents))
  else if endswith file_path ".json" then
    bind (chunking_json file_bytes tag source)
         (fun file_documents => Ok (Some file_documents))
  else
    (* the [ValueError] is built and dropped: there is no [raise] *)
    let _ := ValueError "Unsupport this type of file" in
    Ok None)).

End Chunking.

(** The splitter built for one call, with that call's [chunk_size] and
    [chunk_overlap], returns no blank chunk.  The recursive splitter with its
    default settings strips every chunk and drops those that come out
    empty. *)
Definition splitter_drops_blank
    (new_splitter : Z -> Z -> result (string -> list string))
    (chunk_size chunk_overlap : Z) : Prop :=
  forall split_text s chunk,
    new_splitter chunk_size chunk_overlap = Ok split_text ->
    In chunk (split_text s) -> blank chunk = false.

(** An item that gives no chunk: not a dictionary, or one from which
    [extract_qa] gets nothing. *)
Definition skipped_item (repr : json -> string)
    (question_iter answer_iter : list string) (item : json) : Prop :=
  match item with
  | JDict d => extract_qa repr question_iter answer_iter d = None
  | _ => True
  end.

(** None of [keys] is a key of [item]. *)
Definition lacks (keys : list string) (item : list (string * json)) : Prop :=
  forall k, In k keys -> json_get k item = None.

(** ** Stand-ins for the libraries, for the worked examples *)

Module Demo.

Definition repr (v : json) : string :=
  match v with
  | JNull => "None"
  | JBool true => "True"
  | JBool false => "False"
  | JInt n => NilZero.string_of_int (Z.to_int n)
  | _ => "..."
  end.

(** One order in which the two sets can come out. *)
Definition question_iter : list string := ["q"; "question"; "query"].
Definition answer_iter : list string := ["response"; "answer"; "a"].

Fixpoint from_slash (s : string) : string :=
  match s with
  | EmptyString => EmptyString
  | String c r => if Ascii.eqb c slash then s else from_slash r
  end.

(** Up to the first [?] or [#]. *)
Definition before_query (s : string) : string :=
  fst (split1 "?"%char (fst (split1 "#"%char s))).

(** The path of a URL: after [scheme://host], up to [?] or [#]; a host with
    one square bracket and not the other is refused. *)
Definition urlparse_path (url : string) : result string :=
  match index 0 "://" url with
  | Some i =>
      let rest := substring (i + 3) (String.length url) url in
      let netloc := fst (split1 slash (before_query rest)) in
      if xorb (contains "["%char netloc) (contains "]"%char netloc)
      then Raise (ValueError "Invalid IPv6 URL")
      else Ok (before_query (from_slash rest))
  | None => Ok (before_query url)
  end.

Fixpoint split_on (sep : ascii) (s : string) : list string :=
  match s with
  | EmptyString => [EmptyString]
  | String c r =>
      let parts := split_on sep r in
      if Ascii.eqb c sep then EmptyString :: parts
      else match parts with
           | h :: t => String c h :: t
           | [] => [String c EmptyString]
           end
  end.

(** Pages are separated by form feeds. *)
Definition pdf_pages (file_bytes : bytes) : result (list string) :=
  Ok (split_on "012"%char file_bytes).

(** One chunk per line that is not blank. *)
Definition new_splitter (chunk_size chunk_overlap : Z)
    : result (string -> list string) :=
  if chunk_overlap <=? chunk_size then
    Ok (fun s => filter (fun x => negb (blank x)) (split_on newline s))
  else Raise (ValueError "Got a larger chunk overlap than chunk size").

Definition decode_ignore (file_bytes : bytes) : string := file_bytes.

(** Everything is one section without a heading. *)
Definition md_header_split (text : string) : list Document :=
  [mkDocument text []].

(** JSON text written with apostrophes for the double quotes. *)
Definition json_text (s : string) : bytes := replace "'"%char "034"%char s.

Definition faq_json : bytes :=
  json_text "{'qa': [{'question':'Q1','answer':'A1'}, {'q':'Q2'}]}".
Definition empty_item_json : bytes := json_text "{'qa': [{}]}".
Definition gap_json : bytes :=
  json_text "[{'q':'no answer'}, {'q':'What  is MCP?','a':'A protocol'}]".

Definition json_loads (file_bytes : bytes) : string + json :=
  if String.eqb file_bytes faq_json then
    inr (JDict [("qa", JList [JDict [("question", JStr "Q1"); ("answer", JStr "A1")];
                              JDict [("q", JStr "Q2")]])])
  else if String.eqb file_bytes empty_item_json then
    inr (JDict [("qa", JList [JDict []])])
  else if String.eqb file_bytes gap_json then
    inr (JList [JDict [("q", JStr "no answer")];
                JDict [("q", JStr "What  is MCP?"); ("a", JStr "A protocol")]])
  else inl "Expecting value: line 1 column 1 (char 0)".

Definition read_file_from_url (url : string) : result bytes :=
  if String.eqb url "https://kb.example.com/docs/faq.json" then Ok faq_json
  else if String.eqb url "https://kb.example.com/docs/empty.json" then Ok empty_item_json
  else if String.eqb url "https://kb.example.com/docs/notes.txt" then Ok "plain notes"
  else if String.eqb url "https://kb.example.com/docs/README" then Ok "read me"
  else if String.eqb url "https://kb.example.com/docs/guide.md" then
    Ok ("Intro   line" ++ String newline ("  second" ++ String newline " "))
  else Raise (OtherError "HTTPStatusError").

Definition chunking_file :=
  chunking_file repr question_iter answer_iter urlparse_path
    pdf_pages new_splitter decode_ignore md_header_split json_loads
    read_file_from_url.

Definition chunking_json :=
  chunking_json repr question_iter answer_iter json_loads.

End Demo.

(** ** Notions used in the statements *)

(** The first, respectively last, character of [s] is whitespace. *)
Definition first_isspace (s : string) : bool :=
  match s with
  | String c _ => isspace c
  | EmptyString => false
  end.

Fixpoint last_isspace (s : string) : bool :=
  match s with
  | EmptyString => false
  | String c EmptyString => isspace c
  | String _ r => last_isspace r
  end.

Fixpoint last_char (s : string) : option ascii :=
  match s with
  | EmptyString => None
  | String c EmptyString => Some c
  | String _ r => last_char r
  end.

(** The characters of [s] that are not whitespace, in order. *)
Definition nonspace (s : string) : list ascii :=
  filter (fun c => negb (isspace c)) (list_ascii_of_string s).

(** A normalised text: plain spaces only, never two in a row, none at either
    end. *)
Definition normalised (s : string) : bool :=
  only_plain_spaces s && negb (double_space s)
  && negb (first_isspace s) && negb (last_isspace s).

(** An item from which the structured Q&A chunker makes a chunk. *)
Definition valid_item (repr : json -> string)
    (question_iter answer_iter : list string) (item : json) : bool :=
  match item with
  | JDict d =>
      match extract_qa repr question_iter answer_iter d with
      | Some _ => true
      | None => false
      end
  | _ => false
  end.

(** A store that returns at most [k] documents when asked for [k >= 0]. *)
Definition returns_at_most_k
    (search : string -> Z -> option dict -> awaited (list Document)) : Prop :=
  forall query k flt docs,
    0 <= k -> outcome (search query k flt) = Ok docs ->
    Z.of_nat (List.length docs) <= k.

(** * Properties *)

(** ** Strings *)

Section StringFacts.

Local Open Scope bool_scope.

Lemma isspace_space : isspace space = true.
Proof. reflexivity. Qed.

Lemma isspace_newline : isspace newline = true.
Proof. reflexivity. Qed.

Lemma not_space_not_plain (c : ascii) :
  isspace c = false -> Ascii.eqb c space = false.
Proof.
  intros Hc. apply Ascii.eqb_neq. intros ->.
  rewrite isspace_space in Hc. discriminate.
Qed.

Lemma double_space_tail (c : ascii) (s : string) :
  double_space (String c s) = false -> double_space s = false.
Proof.
  destruct s as [|d t]; [reflexivity|].
  cbn [double_space]. intros H. apply orb_false_elim in H. apply H.
Qed.

Lemma double_space_cons (c : ascii) (s : string) :
  double_space (String c s)
  = (Ascii.eqb c space && starts_with_space s) || double_space s.
Proof. destruct s as [|d t]; cbn; [now rewrite andb_false_r | reflexivity]. Qed.

(** *** [sub_ws] *)

Lemma sub_ws_only_plain_spaces (s : string) :
  forall in_run, only_plain_spaces (sub_ws in_run s) = true.
Proof.
  induction s as [|c r IH]; intros in_run; cbn [sub_ws]; [reflexivity|].
  destruct (isspace c) eqn:Hc.
  - destruct in_run; [apply IH|].
    cbn [only_plain_spaces]. rewrite IH, Ascii.eqb_refl.
    now rewrite orb_true_r.
  - cbn [only_plain_spaces]. now rewrite Hc, IH.
Qed.

Lemma sub_ws_no_double_space (s : string) :
  forall in_run,
    double_space (sub_ws in_run s) = false
    /\ (in_run = true -> starts_with_space (sub_ws in_run s) = false).
Proof.
  induction s as [|c r IH]; intros in_run; cbn [sub_ws]; [now split|].
  destruct (isspace c) eqn:Hc.
  - destruct in_run.
    + apply IH.
    + destruct (IH true) as [Hd Hs]. split; [|discriminate].
      rewrite double_space_cons, Hd, (Hs eq_refl).
      now rewrite andb_false_r.
  - destruct (IH false) as [Hd _]. split.
    + rewrite double_space_cons, Hd, (not_space_not_plain c Hc). reflexivity.
    + intros _. cbn. now apply not_space_not_plain.
Qed.

Lemma sub_ws_blank (s : string) :
  forall in_run, blank (sub_ws in_run s) = blank s.
Proof.
  induction s as [|c r IH]; intros in_run; cbn [sub_ws blank]; [reflexivity|].
  destruct (isspace c) eqn:Hc.
  - destruct in_run; cbn [blank]; rewrite ?isspace_space, IH; reflexivity.
  - cbn [blank]. now rewrite Hc.
Qed.

Lemma replace_newline_blank (s : string) :
  blank (replace newline space s) = blank s.
Proof.
  induction s as [|c r IH]; cbn [replace blank]; [reflexivity|].
  rewrite IH. destruct (Ascii.eqb c newline) eqn:Hc; [|reflexivity].
  apply Ascii.eqb_eq in Hc. subst c. reflexivity.
Qed.

(** *** [lstrip], [rstrip] and [strip] *)

Lemma lstrip_only_plain_spaces (s : string) :
  only_plain_spaces s = true -> only_plain_spaces (lstrip s) = true.
Proof.
  induction s as [|c r IH]; [easy|].
  intros H. cbn [lstrip]. destruct (isspace c); [|exact H].
  apply IH. cbn [only_plain_spaces] in H.
  apply andb_true_iff in H. apply H.
Qed.

Lemma lstrip_no_double_space (s : string) :
  double_space s = false -> double_space (lstrip s) = false.
Proof.
  induction s as [|c r IH]; [easy|].
  intros H. cbn [lstrip]. destruct (isspace c); [|exact H].
  apply IH. exact (double_space_tail c r H).
Qed.

Lemma lstrip_blank (s : string) : blank (lstrip s) = blank s.
Proof.
  induction s as [|c r IH]; [reflexivity|].
  cbn [lstrip blank]. destruct (isspace c) eqn:Hc; [exact IH|].
  cbn [blank]. now rewrite Hc.
Qed.

Lemma rstrip_cons (c : ascii) (r : string) :
  rstrip (String c r)
  = match rstrip r with
    | EmptyString => if isspace c then EmptyString else String c EmptyString
    | String d t => String c (String d t)
    end.
Proof. cbn [rstrip]. destruct (rstrip r); reflexivity. Qed.

Lemma rstrip_head (s : string) (d : ascii) (t : string) :
  rstrip s = String d t -> exists t', s = String d t'.
Proof.
  destruct s as [|c r]; [discriminate|].
  rewrite rstrip_cons. intros H. exists r.
  destruct (rstrip r); [destruct (isspace c)|]; congruence.
Qed.

Lemma rstrip_only_plain_spaces (s : string) :
  only_plain_spaces s = true -> only_plain_spaces (rstrip s) = true.
Proof.
  induction s as [|c r IH]; [easy|].
  intros H. cbn [only_plain_spaces] in H. apply andb_true_iff in H.
  destruct H as [Hc Hr]. specialize (IH Hr). rewrite rstrip_cons.
  destruct (rstrip r) as [|d t].
  - destruct (isspace c) eqn:E; [reflexivity|].
    cbn [only_plain_spaces]. now rewrite E.
  - change (only_plain_spaces (String c (String d t)))
      with ((negb (isspace c) || Ascii.eqb c space)
            && only_plain_spaces (String d t)).
    now rewrite Hc, IH.
Qed.

Lemma rstrip_no_double_space (s : string) :
  double_space s = false -> double_space (rstrip s) = false.
Proof.
  induction s as [|c r IH]; [easy|].
  intros H. pose proof (double_space_tail c r H) as Hr.
  specialize (IH Hr). rewrite rstrip_cons.
  destruct (rstrip r) as [|d t] eqn:Er.
  - destruct (isspace c); reflexivity.
  - destruct (rstrip_head r d t Er) as [t' ->].
    rewrite double_space_cons in H. apply orb_false_elim in H.
    rewrite double_space_cons, IH. cbn [starts_with_space] in *.
    destruct H as [H _]. now rewrite H.
Qed.

Lemma rstrip_not_empty (s : string) :
  blank s = false -> rstrip s <> EmptyString.
Proof.
  induction s as [|c r IH]; [discriminate|].
  cbn [blank]. intros H. rewrite rstrip_cons.
  destruct (rstrip r) as [|d t]; [|discriminate].
  destruct (isspace c); [|discriminate].
  cbn in H. exfalso. now apply IH.
Qed.

(** *** [contains] *)

Lemma only_plain_spaces_no_newline (s : string) :
  only_plain_spaces s = true -> contains newline s = false.
Proof.
  unfold contains. induction s as [|c r IH]; [reflexivity|].
  cbn [only_plain_spaces list_ascii_of_string existsb].
  intros H. apply andb_true_iff in H. destruct H as [Hc Hr].
  rewrite (IH Hr), orb_false_r. apply Ascii.eqb_neq. intros <-.
  rewrite isspace_newline in Hc. discriminate.
Qed.

Lemma contains_append (c : ascii) (s t : string) :
  contains c (s ++ t) = contains c s || contains c t.
Proof.
  unfold contains. induction s as [|d r IH]; [reflexivity|].
  cbn [append list_ascii_of_string existsb]. now rewrite IH, orb_assoc.
Qed.

Lemma split1_first (sep : ascii) (stem rest : string) :
  contains sep stem = false ->
  split1 sep (stem ++ String sep rest) = (stem, Some rest).
Proof.
  unfold contains. induction stem as [|c r IH]; cbn [append split1].
  - now rewrite Ascii.eqb_refl.
  - cbn [list_ascii_of_string existsb]. intros H.
    apply orb_false_elim in H. destruct H as [Hc Hr].
    rewrite Ascii.eqb_sym, Hc, (IH Hr). reflexivity.
Qed.

Lemma split1_none (sep : ascii) (s : string) :
  contains sep s = false -> split1 sep s = (s, None).
Proof.
  unfold contains. induction s as [|c r IH]; [reflexivity|].
  cbn [list_ascii_of_string existsb split1]. intros H.
  apply orb_false_elim in H. destruct H as [Hc Hr].
  rewrite Ascii.eqb_sym, Hc, (IH Hr). reflexivity.
Qed.

(** *** [clean_text] *)

Lemma clean_text_no_newline (chunk : string) :
  contains newline (clean_text chunk) = false.
Proof.
  apply only_plain_spaces_no_newline. unfold clean_text, strip.
  apply rstrip_only_plain_spaces, lstrip_only_plain_spaces,
    sub_ws_only_plain_spaces.
Qed.

Lemma clean_text_no_double_space (chunk : string) :
  double_space (clean_text chunk) = false.
Proof.
  unfold clean_text, strip.
  apply rstrip_no_double_space, lstrip_no_double_space,
    sub_ws_no_double_space.
Qed.

Lemma clean_text_not_empty (chunk : string) :
  blank chunk = false -> clean_text chunk <> EmptyString.
Proof.
  intros H. unfold clean_text, strip. apply rstrip_not_empty.
  now rewrite lstrip_blank, sub_ws_blank, replace_newline_blank.
Qed.

End StringFacts.

(** ** Retrieval *)

Lemma int_true_div_2 (a : Z) : int (true_div a 2) = Z.quot a 2.
Proof. reflexivity. Qed.

(** For positive [k] the dividend is an even integer between 2 and 40, so
    the float that Python computes for the quotient is the exact quotient. *)
Lemma effective_k_dividend (k : Z) :
  0 < k ->
  2 <= k + 20 - Z.abs (k - 20) <= 40 /\
  k + 20 - Z.abs (k - 20) = Z.min k 20 * 2.
Proof. lia. Qed.

Lemma arithmetic_form_is_min (k : Z) :
  0 < k -> int (true_div (k + 20 - Z.abs (k - 20)) 2) = Z.min k 20.
Proof.
  intros Hk. rewrite int_true_div_2.
  destruct (effective_k_dividend k Hk) as [_ ->].
  apply Z.quot_mul. discriminate.
Qed.

Lemma effective_k_range (k : Z) : 1 <= effective_k k <= 20.
Proof.
  unfold effective_k. destruct (0 <? k) eqn:Hk; [|lia].
  apply Z.ltb_lt in Hk. rewrite (arithmetic_form_is_min k Hk). lia.
Qed.

(** C1: the tool replaces [k] by 1 when [k <= 0], keeps it when
    [0 < k <= 20] and replaces it by 20 when [k > 20]; the arithmetic form
    used for positive [k] is [min(k, 20)]; and that effective [k] is the one
    the vector store is asked for: what the store answers in time to the
    query at the effective [k] is what the tool returns, the tool's result
    depends on the store through that one request only, and so two stores
    that agree on every [k] in 1..20 give the same answers to the tool. *)
Theorem retrieval_effective_k (k : Z) :
  (k <= 0 -> effective_k k = 1)
  /\ (0 < k <= 20 -> effective_k k = k)
  /\ (20 < k -> effective_k k = 20)
  /\ (0 < k -> int (true_div (k + 20 - Z.abs (k - 20)) 2) = Z.min k 20)
  /\ (forall search1 search2 query tag,
        (forall q k' flt, 1 <= k' <= 20 -> search1 q k' flt = search2 q k' flt) ->
        retrieval search1 query k tag = retrieval search2 query k tag)
  /\ (forall search query tag docs,
        (elapsed (search query (effective_k k) (tag_filter tag)) <= 5)%Q ->
        outcome (search query (effective_k k) (tag_filter tag)) = Ok docs ->
        retrieval search query k tag = Ok (map retrieved_text docs))
  /\ (forall search1 search2 query tag,
        search1 query (effective_k k) (tag_filter tag)
        = search2 query (effective_k k) (tag_filter tag) ->
        retrieval search1 query k tag = retrieval search2 query k tag).
Proof.
  assert (Hpos : 0 < k -> effective_k k = Z.min k 20).
  { intros Hk. unfold effective_k.
    destruct (Z.ltb_spec 0 k); [now apply arithmetic_form_is_min | lia]. }
  split; [|split; [|split; [|split; [|split; [|split]]]]].
  - intros Hk. unfold effective_k. destruct (Z.ltb_spec 0 k); [lia | reflexivity].
  - intros Hk. rewrite Hpos; lia.
  - intros Hk. rewrite Hpos; lia.
  - apply arithmetic_form_is_min.
  - intros search1 search2 query tag Hagree.
    unfold retrieval, retrieve_relevant_documents.
    now rewrite (Hagree query (effective_k k) (tag_filter tag) (effective_k_range k)).
  - intros search query tag docs Hin Hout.
    unfold retrieval, retrieve_relevant_documents, wait_for.
    cbn [elapsed outcome]. apply Qle_bool_iff in Hin.
    now rewrite Hin, Hout.
  - intros search1 search2 query tag Hsame.
    unfold retrieval, retrieve_relevant_documents. now rewrite Hsame.
Qed.

Lemma retrieval_effective_k_witness :
  effective_k (-3) = 1 /\ effective_k 7 = 7 /\ effective_k 25 = 20
  /\ int (true_div (25 + 20 - Z.abs (25 - 20)) 2) = Z.min 25 20
  /\ retrieval
       (fun _ k' _ => mkAwaited 1 (Ok (repeat (mkDocument "hit" []) (Z.to_nat k'))))
       "what is MCP" 25 None
     = Ok (repeat (mkEntry "hit" []) 20).
Proof.
  split; [|split; [|split; [|split]]].
  - apply (retrieval_effective_k (-3)). lia.
  - apply (retrieval_effective_k 7). lia.
  - apply (retrieval_effective_k 25). lia.
  - apply (retrieval_effective_k 25). lia.
  - apply (proj1 (proj2 (proj2 (proj2 (proj2 (proj2 (retrieval_effective_k 25))))))
             (fun _ k' _ =>
                mkAwaited 1 (Ok (repeat (mkDocument "hit" []) (Z.to_nat k'))))
             "what is MCP" None (repeat (mkDocument "hit" []) 20)).
    + vm_compute. discriminate.
    + reflexivity.
Defined.

(** C2: when the similarity search runs for more than five seconds the tool
    returns the empty list, not an error; when it ends in time with a list of
    documents the tool returns their [{text, metadata}] pairs in the same
    order. *)
Theorem retrieval_timeout_gives_empty
    (search : string -> Z -> option dict -> awaited (list Document))
    (query : string) (k : Z) (tag : option string) :
  (5 < elapsed (search query (effective_k k) (tag_filter tag)) ->
   retrieval search query k tag = Ok [])%Q
  /\ (forall docs,
        (elapsed (search query (effective_k k) (tag_filter tag)) <= 5)%Q ->
        outcome (search query (effective_k k) (tag_filter tag)) = Ok docs ->
        retrieval search query k tag = Ok (map retrieved_text docs)).
Proof.
  unfold retrieval, retrieve_relevant_documents, wait_for. cbn [elapsed outcome].
  split.
  - intros Hlate.
    destruct (Qle_bool _ 5) eqn:Hle; [|reflexivity].
    apply Qle_bool_iff in Hle. exfalso. exact (Qlt_not_le _ _ Hlate Hle).
  - intros docs Hin Hout. apply Qle_bool_iff in Hin.
    rewrite Hin, Hout. reflexivity.
Qed.

Lemma retrieval_timeout_gives_empty_witness :
  retrieval (table_search demo_table 6) "what is MCP" 2 (Some "A") = Ok []
  /\ retrieval (table_search demo_table 1) "what is MCP" 2 (Some "A")
     = Ok [ mkEntry "MCP is a protocol"
              [("source", "md"); ("location", "ROOT"); ("tag", "A")];
            mkEntry "Tools are functions"
              [("source", "md"); ("location", "Intro"); ("tag", "A")] ].
Proof.
  split.
  - apply (proj1 (retrieval_timeout_gives_empty (table_search demo_table 6)
                    "what is MCP" 2 (Some "A"))).
    reflexivity.
  - apply (proj2 (retrieval_timeout_gives_empty (table_search demo_table 1)
                    "what is MCP" 2 (Some "A"))
             [ mkDocument "MCP is a protocol"
                 [("source", "md"); ("location", "ROOT"); ("tag", "A")];
               mkDocument "Tools are functions"
                 [("source", "md"); ("location", "Intro"); ("tag", "A")] ]).
    + vm_compute. discriminate.
    + reflexivity.
Defined.

Lemma In_firstn {A : Type} (n : nat) (l : list A) (x : A) :
  In x (firstn n l) -> In x l.
Proof.
  revert l. induction n as [|n IH]; intros [|y l]; cbn; try tauto.
  intros [H | H]; [now left | right; now apply IH].
Qed.

Lemma table_search_honours_filter (table : list Document) (delay : Q) :
  honours_filter (table_search table delay).
Proof.
  intros query k flt docs d key v Hout Hd Hkv.
  cbn in Hout. injection Hout as <-.
  assert (Hm : matches_filter (Some flt) d = true).
  { apply (proj2 (proj1 (filter_In _ _ _) (In_firstn _ _ _ Hd))). }
  cbn in Hm. rewrite forallb_forall in Hm. specialize (Hm _ Hkv).
  cbn in Hm. destruct (dict_get key (doc_metadata d)) as [w|]; [|discriminate].
  apply String.eqb_eq in Hm. now subst.
Qed.

(** C6: with a tag the search is run with the filter [{"tag": tag}] and no
    other, so that against a store that applies its filter by equality every
    returned entry carries exactly that tag; without a tag the search is run
    with no filter at all. *)
Theorem retrieval_tag_filter
    (search : string -> Z -> option dict -> awaited (list Document))
    (query : string) (k : Z) :
  (forall t,
     retrieve_relevant_documents search query k (Some t)
     = let run := search query k (Some [("tag", t)]) in
       mkAwaited (elapsed run)
         (bind (outcome run) (fun docs => Ok (map retrieved_text docs))))
  /\ (forall t results entry,
        honours_filter search ->
        outcome (retrieve_relevant_documents search query k (Some t)) = Ok results ->
        In entry results ->
        dict_get "tag" (metadata entry) = Some t)
  /\ retrieve_relevant_documents search query k None
     = (let run := search query k None in
        mkAwaited (elapsed run)
          (bind (outcome run) (fun docs => Ok (map retrieved_text docs)))).
Proof.
  split; [reflexivity|]. split; [|reflexivity].
  intros t results entry Hstore Hout Hin.
  unfold retrieve_relevant_documents in Hout. cbn [outcome tag_filter] in Hout.
  destruct (outcome (search query k (Some [("tag", t)]))) as [docs|e] eqn:Hrun;
    [|discriminate].
  cbn in Hout. injection Hout as <-.
  apply in_map_iff in Hin. destruct Hin as [d [<- Hd]].
  cbn [metadata retrieved_text].
  apply (Hstore query k [("tag", t)] docs d "tag" t Hrun Hd). now left.
Qed.

Lemma retrieval_tag_filter_witness :
  dict_get "tag"
    (metadata (mkEntry "Tools are functions"
                 [("source", "md"); ("location", "Intro"); ("tag", "A")]))
  = Some "A".
Proof.
  apply (proj1 (proj2 (retrieval_tag_filter (table_search demo_table 1)
                         "what is MCP" 20))
           "A"
           [ mkEntry "MCP is a protocol"
               [("source", "md"); ("location", "ROOT"); ("tag", "A")];
             mkEntry "Tools are functions"
               [("source", "md"); ("location", "Intro"); ("tag", "A")] ]).
  - apply table_search_honours_filter.
  - reflexivity.
  - right. left. reflexivity.
Defined.

(** ** Question and answer extraction *)

Section ExtractQA.

Variable repr : json -> string.

Lemma next_present_lacks (keys : list string) (item : list (string * json)) :
  lacks keys item -> next_present keys item = JNull.
Proof.
  induction keys as [|k rest IH]; intros Habs; cbn; [reflexivity|].
  rewrite (Habs k (or_introl eq_refl)).
  apply IH. intros k' Hk'. apply Habs. now right.
Qed.

Lemma next_present_first (pre post : list string) (k : string)
    (item : list (string * json)) (v : json) :
  lacks pre item -> json_get k item = Some v ->
  next_present ((pre ++ k :: post)%list) item = v.
Proof.
  induction pre as [|p pre IH]; intros Habs Hk; cbn.
  - now rewrite Hk.
  - rewrite (Habs p (or_introl eq_refl)).
    apply IH; [|exact Hk]. intros k' Hk'. apply Habs. now right.
Qed.

(** What [next] yields: the value under the first key, in iteration order,
    that the item has; [None] when it has none of them. *)
Lemma next_present_cases (keys : list string) (item : list (string * json)) :
  (lacks keys item /\ next_present keys item = JNull)
  \/ (exists pre k post v,
        keys = (pre ++ k :: post)%list /\ lacks pre item
        /\ json_get k item = Some v /\ next_present keys item = v).
Proof.
  induction keys as [|k rest IH]; cbn.
  - left. split; [intros k []|reflexivity].
  - destruct (json_get k item) as [v|] eqn:Hk.
    + right. exists [], k, rest, v.
      split; [reflexivity|]. split; [intros k' []|]. split; [exact Hk | reflexivity].
    + destruct IH as [[Habs Hn] | (pre & k0 & post & v & -> & Habs & Hk0 & Hn)].
      * left. split; [|exact Hn]. intros k' [<- | Hk']; [exact Hk | now apply Habs].
      * right. exists (k :: pre), k0, post, v.
        split; [reflexivity|]. split; [|split; [exact Hk0 | exact Hn]].
        intros k' [<- | Hk']; [exact Hk | now apply Habs].
Qed.

Lemma next_present_only (keys : list string) (item : list (string * json))
    (k : string) (v : json) :
  In k keys -> json_get k item = Some v ->
  (forall k', In k' keys -> k' <> k -> json_get k' item = None) ->
  next_present keys item = v.
Proof.
  intros Hin Hk Hothers.
  destruct (next_present_cases keys item)
    as [[Habs _] | (pre & k0 & post & v0 & -> & Habs & Hk0 & ->)].
  - rewrite (Habs k Hin) in Hk. discriminate.
  - destruct (String.eqb_spec k0 k) as [-> | Hne]; [congruence|].
    rewrite (Hothers k0) in Hk0; [discriminate | | exact Hne].
    apply in_or_app. right. now left.
Qed.

Lemma lacks_perm (keys keys' : list string) (item : list (string * json)) :
  Permutation keys keys' -> lacks keys' item -> lacks keys item.
Proof.
  intros Hp Habs k Hk. apply Habs. exact (Permutation_in k Hp Hk).
Qed.

Lemma extract_qa_lacks (question_iter answer_iter : list string)
    (item : list (string * json)) :
  lacks question_iter item \/ lacks answer_iter item ->
  extract_qa repr question_iter answer_iter item = None.
Proof.
  intros [H | H]; unfold extract_qa; rewrite (next_present_lacks _ _ H); cbn;
    [reflexivity | now rewrite orb_true_r].
Qed.

End ExtractQA.

(** C5, as the claim states it, fails: with the set iterated in the order
    q, question, query, an item that has both a "question" and a "q" key
    gives the value under "q". *)
Lemma extract_qa_priority_counterexample :
  Permutation Demo.question_iter QUESTION_KEYS
  /\ Permutation Demo.answer_iter ANSWER_KEYS
  /\ extract_qa Demo.repr Demo.question_iter Demo.answer_iter
       [("question", JStr "What is MCP?"); ("q", JStr "MCP?");
        ("answer", JStr "A protocol")]
     = Some ("MCP?", "A protocol")
  /\ extract_qa Demo.repr Demo.question_iter Demo.answer_iter
       [("question", JStr "What is MCP?"); ("q", JStr "MCP?");
        ("answer", JStr "A protocol")]
     <> Some ("What is MCP?", "A protocol").
Proof.
  split; [apply perm_swap|]. split.
  - exact (perm_trans (perm_swap "answer" "response" ["a"])
             (perm_skip "answer" (perm_swap "a" "response" []))).
  - split; [reflexivity | discriminate].
Qed.

(** C5, amended: the question is the value under the first key that the item
    has among question, q, query taken in the order in which the set is
    iterated, whatever that order is, and [None] when the item has none of
    them; the answer likewise among answer, a, response.  So the value used
    is always the one under one of the three names, and when the item has
    only one of them it is that one's, in every iteration order. *)
Theorem extract_qa_first_in_iteration_order
    (repr : json -> string) (question_iter answer_iter : list string)
    (item : list (string * json)) :
  Permutation question_iter QUESTION_KEYS ->
  Permutation answer_iter ANSWER_KEYS ->
  let q := next_present question_iter item in
  let a := next_present answer_iter item in
  extract_qa repr question_iter answer_iter item
  = (if truthy q && truthy a
     then Some (strip (str repr q), strip (str repr a)) else None)
  /\ ((lacks QUESTION_KEYS item /\ q = JNull)
      \/ (exists pre k post,
            question_iter = (pre ++ k :: post)%list /\ lacks pre item
            /\ In k QUESTION_KEYS /\ json_get k item = Some q))
  /\ ((lacks ANSWER_KEYS item /\ a = JNull)
      \/ (exists pre k post,
            answer_iter = (pre ++ k :: post)%list /\ lacks pre item
            /\ In k ANSWER_KEYS /\ json_get k item = Some a))
  /\ (forall k v,
        In k QUESTION_KEYS -> json_get k item = Some v ->
        (forall k', In k' QUESTION_KEYS -> k' <> k -> json_get k' item = None) ->
        q = v)
  /\ (forall k v,
        In k ANSWER_KEYS -> json_get k item = Some v ->
        (forall k', In k' ANSWER_KEYS -> k' <> k -> json_get k' item = None) ->
        a = v).
Proof.
  intros Hq Ha q a.
  assert (Hcases : forall iter keys, Permutation iter keys ->
            (lacks keys item /\ next_present iter item = JNull)
            \/ (exists pre k post,
                  iter = (pre ++ k :: post)%list /\ lacks pre item
                  /\ In k keys
                  /\ json_get k item = Some (next_present iter item))).
  { intros iter keys Hp.
    destruct (next_present_cases iter item)
      as [[Habs Hn] | (pre & k & post & v & Heq & Habs & Hk & Hn)].
    - left. split; [|exact Hn].
      exact (lacks_perm keys iter item (Permutation_sym Hp) Habs).
    - right. exists pre, k, post. rewrite Hn. repeat split; try assumption.
      apply (Permutation_in k Hp). rewrite Heq. apply in_or_app. right. now left. }
  assert (Honly : forall iter keys, Permutation iter keys ->
            forall k v, In k keys -> json_get k item = Some v ->
            (forall k', In k' keys -> k' <> k -> json_get k' item = None) ->
            next_present iter item = v).
  { intros iter keys Hp k v Hin Hk Hothers.
    apply (next_present_only iter item k v);
      [exact (Permutation_in k (Permutation_sym Hp) Hin) | exact Hk |].
    intros k' Hk'. apply Hothers. exact (Permutation_in k' Hp Hk'). }
  split; [|split; [|split; [|split]]].
  - unfold extract_qa. fold q a. destruct (truthy q), (truthy a); reflexivity.
  - exact (Hcases question_iter QUESTION_KEYS Hq).
  - exact (Hcases answer_iter ANSWER_KEYS Ha).
  - exact (Honly question_iter QUESTION_KEYS Hq).
  - exact (Honly answer_iter ANSWER_KEYS Ha).
Qed.

Lemma extract_qa_first_in_iteration_order_witness :
  next_present Demo.question_iter
    [("query", JStr "What is a tool?"); ("response", JStr "A function")]
  = JStr "What is a tool?".
Proof.
  apply (proj1 (proj2 (proj2 (proj2
           (extract_qa_first_in_iteration_order Demo.repr
              Demo.question_iter Demo.answer_iter
              [("query", JStr "What is a tool?"); ("response", JStr "A function")]
              (perm_swap "question" "q" ["query"])
              (perm_trans (perm_swap "answer" "response" ["a"])
                 (perm_skip "answer" (perm_swap "a" "response" []))))))) "query").
  - cbn. tauto.
  - reflexivity.
  - intros k' [<- | [<- | [<- | []]]] Hne; try reflexivity. now elim Hne.
Defined.

(** ** The structured Q&A chunker *)

Section ChunkingJson.

Variable repr : json -> string.
Variable question_iter answer_iter : list string.

Let json_document := json_document repr question_iter answer_iter.
Let json_documents := json_documents repr question_iter answer_iter.
Let skipped_item := skipped_item repr question_iter answer_iter.

Lemma json_document_skipped (tag source : string) (idx : nat) (item : json) :
  skipped_item item -> json_document tag source idx item = [].
Proof.
  destruct item; try reflexivity.
  cbn. intros ->. reflexivity.
Qed.

Lemma json_documents_app (tag source : string) (pre post : list json) :
  forall idx,
    json_documents tag source idx (pre ++ post)
    = (json_documents tag source idx pre
       ++ json_documents tag source (idx + List.length pre) post)%list.
Proof.
  induction pre as [|item pre IH]; intros idx; cbn.
  - now rewrite Nat.add_0_r.
  - fold json_documents. rewrite IH, Nat.add_succ_r. cbn.
    now rewrite app_assoc.
Qed.

Lemma json_documents_all_skipped (tag source : string) (items : list json) :
  (forall item, In item items -> skipped_item item) ->
  forall idx, json_documents tag source idx items = [].
Proof.
  induction items as [|item rest IH]; intros Hskip idx; [reflexivity|].
  cbn. fold json_documents json_document.
  rewrite (json_document_skipped tag source idx item (Hskip item (or_introl eq_refl))).
  apply IH. intros it Hit. apply Hskip. now right.
Qed.

Lemma json_documents_text (tag source : string) (items : list json) :
  forall idx c,
    In c (json_documents tag source idx items) ->
    exists question answer,
      text c = "Question: " ++ question ++ String newline ("Answer: " ++ answer).
Proof.
  induction items as [|item rest IH]; intros idx c; [intros []|].
  cbn. fold json_documents. intros Hin. apply in_app_or in Hin.
  destruct Hin as [Hin | Hin]; [|exact (IH _ _ Hin)].
  destruct item as [| | | | |l|d]; try contradiction.
  cbn in Hin. destruct (extract_qa repr question_iter answer_iter d) as [[q a]|];
    [|contradiction].
  destruct Hin as [<- | []]. now exists q, a.
Qed.

End ChunkingJson.

(** C7: when every item is skipped (it is not a dictionary, or it has none of
    the question keys, or none of the answer keys, or [extract_qa] otherwise
    gets nothing from it), the chunker raises [ValueError("No valid Q&A found
    in JSON")]; and it never returns an empty list. *)
Theorem chunking_json_no_valid_item
    (repr : json -> string) (question_iter answer_iter : list string)
    (json_loads : bytes -> string + json)
    (file_bytes : bytes) (tag source : string) :
  (forall data items,
     json_loads file_bytes = inr data -> json_items data = Ok items ->
     (forall item, In item items ->
        skipped_item repr question_iter answer_iter item) ->
     chunking_json repr question_iter answer_iter json_loads file_bytes tag source
     = Raise (ValueError "No valid Q&A found in JSON"))
  /\ (forall data items,
        json_loads file_bytes = inr data -> json_items data = Ok items ->
        (forall d, In (JDict d) items ->
           lacks question_iter d \/ lacks answer_iter d) ->
        chunking_json repr question_iter answer_iter json_loads file_bytes tag source
        = Raise (ValueError "No valid Q&A found in JSON"))
  /\ chunking_json repr question_iter answer_iter json_loads file_bytes tag source
     <> Ok [].
Proof.
  assert (Hgen : forall data items,
     json_loads file_bytes = inr data -> json_items data = Ok items ->
     (forall item, In item items ->
        skipped_item repr question_iter answer_iter item) ->
     chunking_json repr question_iter answer_iter json_loads file_bytes tag source
     = Raise (ValueError "No valid Q&A found in JSON")).
  { intros data items Hload Hitems Hskip. unfold chunking_json.
    rewrite Hload, Hitems. cbn [bind].
    now rewrite (json_documents_all_skipped repr question_iter answer_iter
                   tag source items Hskip 1%nat). }
  split; [exact Hgen|]. split.
  - intros data items Hload Hitems Hlack. apply (Hgen data items Hload Hitems).
    intros item Hin. destruct item; try exact I.
    cbn. apply extract_qa_lacks. now apply Hlack.
  - unfold chunking_json. destruct (json_loads file_bytes) as [e|data]; [discriminate|].
    destruct (json_items data) as [items|e]; [|discriminate]. cbn [bind].
    destruct (json_documents _ _ _ _ _ _ _); discriminate.
Qed.

Lemma chunking_json_no_valid_item_witness :
  Demo.chunking_json Demo.empty_item_json "AI" "json"
  = Raise (ValueError "No valid Q&A found in JSON").
Proof.
  apply (proj1 (chunking_json_no_valid_item Demo.repr Demo.question_iter
                  Demo.answer_iter Demo.json_loads Demo.empty_item_json "AI" "json")
           (JDict [("qa", JList [JDict []])]) [JDict []]).
  - reflexivity.
  - reflexivity.
  - intros item [<- | []]. reflexivity.
Defined.

(** C8: a valid item gives exactly one chunk, with the text
    "Question: q\nAnswer: a" and the location "Q&A #n", [n] being one more
    than the number of items before it, skipped ones included; the chunks of
    the items before and after it are what they would be without it, the
    later ones still numbered by their own positions. *)
Theorem chunking_json_valid_item
    (repr : json -> string) (question_iter answer_iter : list string)
    (json_loads : bytes -> string + json)
    (file_bytes : bytes) (tag source : string)
    (data : json) (pre post : list json) (d : list (string * json))
    (question answer : string) :
  json_loads file_bytes = inr data ->
  json_items data = Ok (pre ++ JDict d :: post)%list ->
  extract_qa repr question_iter answer_iter d = Some (question, answer) ->
  json_document repr question_iter answer_iter tag source
    (List.length pre + 1) (JDict d)
  = [mkEntry ("Question: " ++ question ++ String newline ("Answer: " ++ answer))
       (mkMetadata source ("Q&A #" ++ format_nat (List.length pre + 1)) tag)]
  /\ chunking_json repr question_iter answer_iter json_loads file_bytes tag source
     = Ok (json_documents repr question_iter answer_iter tag source 1 pre
           ++ [mkEntry
                 ("Question: " ++ question ++ String newline ("Answer: " ++ answer))
                 (mkMetadata source
                    ("Q&A #" ++ format_nat (List.length pre + 1)) tag)]
           ++ json_documents repr question_iter answer_iter tag source
                (List.length pre + 2) post)%list.
Proof.
  intros Hload Hitems Hqa.
  assert (Hone : json_document repr question_iter answer_iter tag source
                   (List.length pre + 1) (JDict d)
                 = [mkEntry
                      ("Question: " ++ question ++ String newline ("Answer: " ++ answer))
                      (mkMetadata source
                         ("Q&A #" ++ format_nat (List.length pre + 1)) tag)]).
  { cbn [json_document]. now rewrite Hqa. }
  split; [exact Hone|].
  unfold chunking_json. rewrite Hload, Hitems. cbn [bind].
  rewrite json_documents_app. cbn [json_documents].
  replace (1 + List.length pre)%nat with (List.length pre + 1)%nat by lia.
  replace (S (List.length pre + 1)) with (List.length pre + 2)%nat by lia.
  rewrite Hone.
  destruct (json_documents repr question_iter answer_iter tag source 1 pre);
    reflexivity.
Qed.

Lemma chunking_json_valid_item_witness :
  Demo.chunking_json Demo.gap_json "AI" "faq"
  = Ok [mkEntry ("Question: What  is MCP?" ++ String newline "Answer: A protocol")
          (mkMetadata "faq" "Q&A #2" "AI")].
Proof.
  apply (proj2 (chunking_json_valid_item Demo.repr Demo.question_iter
                  Demo.answer_iter Demo.json_loads Demo.gap_json "AI" "faq"
                  (JList [JDict [("q", JStr "no answer")];
                          JDict [("q", JStr "What  is MCP?"); ("a", JStr "A protocol")]])
                  [JDict [("q", JStr "no answer")]] []
                  [("q", JStr "What  is MCP?"); ("a", JStr "A protocol")]
                  "What  is MCP?" "A protocol"
                  eq_refl eq_refl eq_refl)).
Defined.

(** ** The source label *)

(** C9: when the basename of the URL's path has a dot, the source label is
    what follows its first dot, so "report.final.pdf" gives "final.pdf". *)
Theorem extract_source_after_first_dot
    (urlparse_path : string -> result string) (url path stem rest : string) :
  urlparse_path url = Ok path ->
  basename path = stem ++ String dot rest ->
  contains dot stem = false ->
  extract_source_from_url urlparse_path url = Ok rest.
Proof.
  intros Hpath Hname Hstem. unfold extract_source_from_url.
  rewrite Hpath. cbn [bind].
  now rewrite Hname, (split1_first dot stem rest Hstem).
Qed.

Lemma extract_source_after_first_dot_witness :
  extract_source_from_url Demo.urlparse_path
    "https://kb.example.com/docs/report.final.pdf?download=1"
  = Ok "final.pdf".
Proof.
  apply (extract_source_after_first_dot Demo.urlparse_path
           "https://kb.example.com/docs/report.final.pdf?download=1"
           "/docs/report.final.pdf" "report" "final.pdf").
  - reflexivity.
  - reflexivity.
  - reflexivity.
Defined.

(** C10: when the basename of the URL's path has no dot,
    [extract_source_from_url] raises [IndexError]; [chunking_file] then ends
    with the error of the fetch or with that [IndexError], whatever the
    chunkers would do, and returns nothing. *)
Theorem extract_source_without_dot
    (urlparse_path : string -> result string) (url path : string) :
  urlparse_path url = Ok path ->
  contains dot (basename path) = false ->
  extract_source_from_url urlparse_path url = Raise IndexError
  /\ forall repr question_iter answer_iter pdf_pages new_splitter decode_ignore
            md_header_split json_loads read_file_from_url
            tag chunk_size chunk_overlap,
       chunking_file repr question_iter answer_iter urlparse_path pdf_pages
         new_splitter decode_ignore md_header_split json_loads
         read_file_from_url tag url chunk_size chunk_overlap
       = bind (read_file_from_url url) (fun _ => Raise IndexError)
       /\ exists e,
            chunking_file repr question_iter answer_iter urlparse_path pdf_pages
              new_splitter decode_ignore md_header_split json_loads
              read_file_from_url tag url chunk_size chunk_overlap
            = Raise e.
Proof.
  intros Hpath Hname.
  assert (Hsrc : extract_source_from_url urlparse_path url = Raise IndexError).
  { unfold extract_source_from_url. rewrite Hpath. cbn [bind].
    now rewrite (split1_none dot _ Hname). }
  split; [exact Hsrc|]. intros.
  unfold chunking_file. rewrite Hsrc.
  destruct (read_file_from_url url) as [file_bytes|e]; cbn [bind].
  - split; [reflexivity | now exists IndexError].
  - split; [reflexivity | now exists e].
Qed.

Lemma extract_source_without_dot_witness :
  extract_source_from_url Demo.urlparse_path "https://kb.example.com/docs/README"
  = Raise IndexError
  /\ Demo.chunking_file "AI" "https://kb.example.com/docs/README" 500 50
     = Raise IndexError.
Proof.
  split.
  - apply (extract_source_without_dot Demo.urlparse_path
             "https://kb.example.com/docs/README" "/docs/README").
    + reflexivity.
    + reflexivity.
  - apply (proj2 (extract_source_without_dot Demo.urlparse_path
                    "https://kb.example.com/docs/README" "/docs/README"
                    eq_refl eq_refl)).
Defined.

(** ** Dispatch on the suffix *)

Lemma chunking_file_other_suffix
    (repr : json -> string) (question_iter answer_iter : list string)
    (urlparse_path : string -> result string)
    (pdf_pages : bytes -> result (list string))
    (new_splitter : Z -> Z -> result (string -> list string))
    (decode_ignore : bytes -> string)
    (md_header_split : string -> list Document)
    (json_loads : bytes -> string + json)
    (read_file_from_url : string -> result bytes)
    (tag file_path : string) (chunk_size chunk_overlap : Z)
    (file_bytes : bytes) (source : string) :
  endswith file_path ".pdf" = false ->
  endswith file_path ".md" = false ->
  endswith file_path ".json" = false ->
  read_file_from_url file_path = Ok file_bytes ->
  extract_source_from_url urlparse_path file_path = Ok source ->
  chunking_file repr question_iter answer_iter urlparse_path pdf_pages
    new_splitter decode_ignore md_header_split json_loads read_file_from_url
    tag file_path chunk_size chunk_overlap
  = Ok None.
Proof.
  intros Hpdf Hmd Hjson Hread Hsrc. unfold chunking_file.
  rewrite Hread. cbn [bind]. rewrite Hsrc. cbn [bind].
  now rewrite Hpdf, Hmd, Hjson.
Qed.

(** C4: for a path ending in ".txt" that is fetched and has a source label,
    [chunking_file] raises nothing: it returns [None]. *)
Theorem chunking_file_txt_returns_none :
  endswith "https://kb.example.com/docs/notes.txt" ".pdf" = false
  /\ endswith "https://kb.example.com/docs/notes.txt" ".md" = false
  /\ endswith "https://kb.example.com/docs/notes.txt" ".json" = false
  /\ Demo.chunking_file "AI" "https://kb.example.com/docs/notes.txt" 500 50
     = Ok None.
Proof. repeat split; reflexivity. Qed.

(** ** The text of a chunk *)

Lemma pdf_documents_text (split_text : string -> list string)
    (tag source : string) (pages : list string) :
  forall page_idx c,
    In c (pdf_documents split_text tag source page_idx pages) ->
    exists page chunk,
      In page pages /\ page <> "" /\ In chunk (split_text page)
      /\ text c = clean_text chunk.
Proof.
  induction pages as [|page rest IH]; intros page_idx c; [intros []|].
  cbn [pdf_documents]. intros Hin. apply in_app_or in Hin.
  destruct Hin as [Hin | Hin].
  - destruct (String.eqb_spec page "") as [|Hne]; [contradiction|].
    apply in_map_iff in Hin. destruct Hin as [chunk [<- Hchunk]].
    exists page, chunk. repeat split; try assumption. now left.
  - destruct (IH _ _ Hin) as (p & chunk & Hp & Hrest).
    exists p, chunk. split; [now right | exact Hrest].
Qed.

Lemma md_documents_text (split_text : string -> list string)
    (tag source : string) (md_docs : list Document) :
  forall c,
    In c (md_documents split_text tag source md_docs) ->
    exists doc chunk,
      In doc md_docs /\ strip (page_content doc) <> ""
      /\ In chunk (split_text (strip (page_content doc)))
      /\ text c = clean_text chunk.
Proof.
  induction md_docs as [|doc rest IH]; intros c; [intros []|].
  cbn [md_documents]. intros Hin. apply in_app_or in Hin.
  destruct Hin as [Hin | Hin].
  - destruct (String.eqb_spec (strip (page_content doc)) "") as [|Hne];
      [contradiction|].
    apply in_map_iff in Hin. destruct Hin as [chunk [<- Hchunk]].
    exists doc, chunk. repeat split; try assumption. now left.
  - destruct (IH _ Hin) as (d & chunk & Hd & Hrest).
    exists d, chunk. split; [now right | exact Hrest].
Qed.

Lemma question_answer_text (question answer : string) :
  "Question: " ++ question ++ String newline ("Answer: " ++ answer) <> ""
  /\ contains newline
       ("Question: " ++ question ++ String newline ("Answer: " ++ answer))
     = true.
Proof.
  split; [discriminate|].
  rewrite !contains_append. unfold contains at 3.
  cbn [list_ascii_of_string existsb]. rewrite Ascii.eqb_refl.
  now rewrite !orb_true_r.
Qed.

Lemma json_documents_text_item (repr : json -> string)
    (question_iter answer_iter : list string)
    (tag source : string) (items : list json) :
  forall idx c,
    In c (json_documents repr question_iter answer_iter tag source idx items) ->
    exists d question answer,
      In (JDict d) items
      /\ extract_qa repr question_iter answer_iter d = Some (question, answer)
      /\ text c
         = "Question: " ++ question ++ String newline ("Answer: " ++ answer).
Proof.
  induction items as [|item rest IH]; intros idx c; [intros []|].
  cbn [json_documents]. intros Hin. apply in_app_or in Hin.
  destruct Hin as [Hin | Hin].
  - destruct item as [| | | | |l|d]; try contradiction.
    cbn in Hin.
    destruct (extract_qa repr question_iter answer_iter d) as [[q a]|] eqn:Hqa;
      [|contradiction].
    destruct Hin as [<- | []]. exists d, q, a.
    split; [now left|]. split; [exact Hqa | reflexivity].
  - destruct (IH _ _ Hin) as (d & q & a & Hd & Hrest).
    exists d, q, a. split; [now right | exact Hrest].
Qed.

(** C3, as the claim states it, fails: the structured Q&A chunker puts a
    newline between the question and the answer and never normalises the
    text, so a run of spaces inside a question stays as well. *)
Lemma chunk_text_newline_counterexample :
  exists c,
    Demo.chunking_json Demo.gap_json "AI" "faq" = Ok [c]
    /\ contains newline (text c) = true
    /\ double_space (text c) = true.
Proof.
  eexists. split; [reflexivity|]. split; reflexivity.
Qed.

(** C3, amended: every chunk of the PDF and Markdown chunkers has a text
    with no newline and no two consecutive spaces, and the text is not empty
    provided the recursive splitter built for the call returns no blank
    chunk; every chunk of the structured Q&A chunker has the text
    "Question: q", a newline, "Answer: a", for the question and answer that
    [extract_qa] gets from one of the items, a text that is not empty and
    that holds that newline.  A page whose extracted text is empty, a section
    whose stripped body is empty and an item that is skipped give no
    chunk. *)
Theorem chunk_text_invariant
    (repr : json -> string) (question_iter answer_iter : list string)
    (pdf_pages : bytes -> result (list string))
    (new_splitter : Z -> Z -> result (string -> list string))
    (decode_ignore : bytes -> string)
    (md_header_split : string -> list Document)
    (json_loads : bytes -> string + json)
    (file_bytes : bytes) (tag source : string) (chunk_size chunk_overlap : Z) :
  (forall docs c,
     chunking_pdf pdf_pages new_splitter file_bytes tag source
       chunk_size chunk_overlap = Ok docs ->
     In c docs ->
     contains newline (text c) = false /\ double_space (text c) = false
     /\ (splitter_drops_blank new_splitter chunk_size chunk_overlap ->
         text c <> ""))
  /\ (forall docs c,
        chunking_md new_splitter decode_ignore md_header_split file_bytes
          tag source chunk_size chunk_overlap = Ok docs ->
        In c docs ->
        contains newline (text c) = false /\ double_space (text c) = false
        /\ (splitter_drops_blank new_splitter chunk_size chunk_overlap ->
         text c <> ""))
  /\ (forall docs c,
        chunking_json repr question_iter answer_iter json_loads file_bytes
          tag source = Ok docs ->
        In c docs ->
        (exists data items d question answer,
           json_loads file_bytes = inr data /\ json_items data = Ok items
           /\ In (JDict d) items
           /\ extract_qa repr question_iter answer_iter d
              = Some (question, answer)
           /\ text c
              = "Question: " ++ question ++ String newline ("Answer: " ++ answer))
        /\ text c <> "" /\ contains newline (text c) = true)
  /\ (forall split_text page_idx rest,
        pdf_documents split_text tag source page_idx ("" :: rest)
        = pdf_documents split_text tag source (S page_idx) rest)
  /\ (forall split_text doc rest,
        strip (page_content doc) = "" ->
        md_documents split_text tag source (doc :: rest)
        = md_documents split_text tag source rest)
  /\ (forall idx item rest,
        skipped_item repr question_iter answer_iter item ->
        json_documents repr question_iter answer_iter tag source idx (item :: rest)
        = json_documents repr question_iter answer_iter tag source (S idx) rest).
Proof.
  assert (Hclean : forall split_text (c : Chunk) chunk s,
            new_splitter chunk_size chunk_overlap = Ok split_text ->
            In chunk (split_text s) -> text c = clean_text chunk ->
            contains newline (text c) = false /\ double_space (text c) = false
            /\ (splitter_drops_blank new_splitter chunk_size chunk_overlap ->
         text c <> "")).
  { intros split_text c chunk s Hnew Hchunk ->.
    split; [apply clean_text_no_newline|].
    split; [apply clean_text_no_double_space|].
    intros Hdrop. apply clean_text_not_empty.
    exact (Hdrop _ _ _ Hnew Hchunk). }
  split; [|split; [|split; [|split; [|split]]]].
  - intros docs c Hrun Hin. unfold chunking_pdf in Hrun.
    destruct (pdf_pages file_bytes) as [pages|e]; [|discriminate].
    cbn [bind] in Hrun.
    destruct (new_splitter chunk_size chunk_overlap) as [split_text|e] eqn:Hnew;
      [|discriminate].
    cbn [bind] in Hrun. injection Hrun as <-.
    destruct (pdf_documents_text _ _ _ _ _ _ Hin)
      as (page & chunk & _ & _ & Hchunk & Htext).
    exact (Hclean split_text c chunk page eq_refl Hchunk Htext).
  - intros docs c Hrun Hin. unfold chunking_md in Hrun.
    destruct (new_splitter chunk_size chunk_overlap) as [split_text|e] eqn:Hnew;
      [|discriminate].
    cbn [bind] in Hrun. injection Hrun as <-.
    destruct (md_documents_text _ _ _ _ _ Hin)
      as (doc & chunk & _ & _ & Hchunk & Htext).
    exact (Hclean split_text c chunk _ eq_refl Hchunk Htext).
  - intros docs c Hrun Hin. unfold chunking_json in Hrun.
    destruct (json_loads file_bytes) as [e|data] eqn:Hload; [discriminate|].
    destruct (json_items data) as [items|e] eqn:Hitems; [|discriminate].
    cbn [bind] in Hrun.
    destruct (json_documents repr question_iter answer_iter tag source 1 items)
      as [|c0 docs0] eqn:Hdocs; [discriminate|].
    injection Hrun as <-. rewrite <- Hdocs in Hin.
    destruct (json_documents_text_item _ _ _ _ _ _ _ _ Hin)
      as (d & q & a & Hd & Hqa & Htext).
    split.
    + exists data, items, d, q, a.
      repeat split; assumption || reflexivity.
    + rewrite Htext. apply question_answer_text.
  - reflexivity.
  - intros split_text doc rest Hempty. cbn [md_documents].
    now rewrite Hempty.
  - intros idx item rest Hskip. cbn [json_documents].
    now rewrite (json_document_skipped repr question_iter answer_iter
                   tag source idx item Hskip).
Qed.

Lemma demo_splitter_drops_blank (chunk_size chunk_overlap : Z) :
  splitter_drops_blank Demo.new_splitter chunk_size chunk_overlap.
Proof.
  intros split_text s chunk Hnew Hin.
  unfold Demo.new_splitter in Hnew.
  destruct (chunk_overlap <=? chunk_size); [|discriminate].
  injection Hnew as <-. apply filter_In in Hin.
  now apply negb_true_iff.
Qed.

Lemma chunk_text_invariant_witness :
  let c := mkEntry "Intro line" (mkMetadata "md" "ROOT" "AI") in
  contains newline (text c) = false /\ double_space (text c) = false
  /\ text c <> "".
Proof.
  intros c.
  destruct (proj1 (proj2
              (chunk_text_invariant Demo.repr Demo.question_iter
                 Demo.answer_iter Demo.pdf_pages Demo.new_splitter
                 Demo.decode_ignore Demo.md_header_split Demo.json_loads
                 ("Intro   line" ++ String newline ("  second" ++ String newline " "))
                 "AI" "md" 500 50))
              [c; mkEntry "second" (mkMetadata "md" "ROOT" "AI")] c
              eq_refl (or_introl eq_refl))
    as (Hnl & Hds & Hne).
  split; [exact Hnl|]. split; [exact Hds|].
  exact (Hne (demo_splitter_drops_blank 500 50)).
Defined.

(** ** Worked examples *)

Example md_location_nested :
  md_location [("h1", "A"); ("h2", "B")] = "A > B"
  /\ md_location [("h1", "A")] = "A"
  /\ md_location [] = "".
Proof. repeat split. Qed.

Example md_root_section :
  md_documents (fun s => [s]) "AI" "md"
    [mkDocument "lead paragraph" []; mkDocument "  " [("h1", "A")];
     mkDocument "body of B" [("h1", "A"); ("h2", "B")]]
  = [mkEntry "lead paragraph" (mkMetadata "md" "ROOT" "AI");
     mkEntry "body of B" (mkMetadata "md" "A > B" "AI")].
Proof. reflexivity. Qed.

Example pdf_pages_skip_empty :
  map (fun c => location (metadata c))
    (pdf_documents (fun s => [s]) "AI" "pdf" 0 ["first"; ""; "third"])
  = ["Page 1"; "Page 3"].
Proof. reflexivity. Qed.

Example faq_one_chunk :
  Demo.chunking_json Demo.faq_json "AI" "json"
  = Ok [mkEntry ("Question: Q1" ++ String newline "Answer: A1")
          (mkMetadata "json" "Q&A #1" "AI")].
Proof. reflexivity. Qed.

Example tag_filter_is_exact :
  retrieval (table_search demo_table 1) "what is MCP" 20 (Some "A")
  = Ok [ mkEntry "MCP is a protocol"
           [("source", "md"); ("location", "ROOT"); ("tag", "A")];
         mkEntry "Tools are functions"
           [("source", "md"); ("location", "Intro"); ("tag", "A")] ].
Proof. reflexivity. Qed.

(** * Further properties of the code *)

(** ** Normalisation of chunk text *)

Section Normalisation.

Local Open Scope bool_scope.

Lemma lstrip_first (s : string) : first_isspace (lstrip s) = false.
Proof.
  induction s as [|c r IH]; [reflexivity|].
  cbn [lstrip]. destruct (isspace c) eqn:Hc; [exact IH | exact Hc].
Qed.

Lemma rstrip_last (s : string) : last_isspace (rstrip s) = false.
Proof.
  induction s as [|c r IH]; [reflexivity|].
  rewrite rstrip_cons. destruct (rstrip r) as [|d t].
  - destruct (isspace c) eqn:Hc; [reflexivity | exact Hc].
  - exact IH.
Qed.

Lemma rstrip_first (s : string) :
  first_isspace s = false -> first_isspace (rstrip s) = false.
Proof.
  destruct s as [|c r]; [easy|]. cbn [first_isspace]. intros Hc.
  rewrite rstrip_cons. destruct (rstrip r); [rewrite Hc|]; exact Hc.
Qed.

Lemma strip_ends (s : string) :
  first_isspace (strip s) = false /\ last_isspace (strip s) = false.
Proof.
  unfold strip. split; [apply rstrip_first, lstrip_first | apply rstrip_last].
Qed.

Lemma lstrip_id (s : string) : first_isspace s = false -> lstrip s = s.
Proof. destruct s as [|c r]; [easy|]. cbn. now intros ->. Qed.

Lemma rstrip_id (s : string) : last_isspace s = false -> rstrip s = s.
Proof.
  induction s as [|c r IH]; [easy|].
  intros H. rewrite rstrip_cons. destruct r as [|d t].
  - cbn in *. now rewrite H.
  - change (last_isspace (String c (String d t))) with (last_isspace (String d t)) in H.
    now rewrite (IH H).
Qed.

Lemma blank_lstrip (s : string) : blank s = true -> lstrip s = "".
Proof.
  induction s as [|c r IH]; [easy|].
  cbn [blank lstrip]. intros H. apply andb_true_iff in H.
  destruct H as [-> Hr]. now apply IH.
Qed.

Lemma blank_strip (s : string) : blank s = true -> strip s = "".
Proof. intros H. unfold strip. now rewrite (blank_lstrip s H). Qed.

Lemma replace_newline_id (s : string) :
  contains newline s = false -> replace newline space s = s.
Proof.
  unfold contains. induction s as [|c r IH]; [reflexivity|].
  cbn [list_ascii_of_string existsb replace]. intros H.
  apply orb_false_elim in H. destruct H as [Hc Hr].
  rewrite Ascii.eqb_sym, Hc, (IH Hr). reflexivity.
Qed.

Lemma sub_ws_id (s : string) :
  forall in_run,
    only_plain_spaces s = true -> double_space s = false ->
    (in_run = true -> starts_with_space s = false) ->
    sub_ws in_run s = s.
Proof.
  induction s as [|c r IH]; intros in_run Hp Hd Hs; [reflexivity|].
  cbn [only_plain_spaces] in Hp. apply andb_true_iff in Hp.
  destruct Hp as [Hc Hp]. rewrite double_space_cons in Hd.
  apply orb_false_elim in Hd. destruct Hd as [Hcs Hd].
  cbn [sub_ws]. destruct (isspace c) eqn:Hw.
  - cbn in Hc. apply Ascii.eqb_eq in Hc. subst c.
    rewrite Ascii.eqb_refl in Hcs. cbn in Hcs.
    destruct in_run.
    + specialize (Hs eq_refl). cbn in Hs. discriminate.
    + f_equal. apply IH; auto.
  - f_equal. apply IH; auto. discriminate.
Qed.

Lemma clean_text_normalised (chunk : string) :
  normalised (clean_text chunk) = true.
Proof.
  assert (Hp : only_plain_spaces (clean_text chunk) = true).
  { unfold clean_text, strip.
    apply rstrip_only_plain_spaces, lstrip_only_plain_spaces,
      sub_ws_only_plain_spaces. }
  destruct (strip_ends (sub_ws false (replace newline space chunk))) as [Hf Hl].
  fold (clean_text chunk) in Hf, Hl.
  unfold normalised.
  now rewrite Hp, clean_text_no_double_space, Hf, Hl.
Qed.

Lemma normalised_fixed (s : string) : normalised s = true -> clean_text s = s.
Proof.
  unfold normalised. intros H.
  apply andb_true_iff in H. destruct H as [H Hl].
  apply andb_true_iff in H. destruct H as [H Hf].
  apply andb_true_iff in H. destruct H as [Hp Hd].
  apply negb_true_iff in Hl, Hf, Hd.
  unfold clean_text, strip.
  rewrite (replace_newline_id s (only_plain_spaces_no_newline s Hp)).
  rewrite (sub_ws_id s false Hp Hd); [|discriminate].
  now rewrite (lstrip_id s Hf), (rstrip_id s Hl).
Qed.

(** The normalisation is idempotent, and the texts it leaves unchanged are
    exactly the normalised ones. *)
Theorem clean_text_idempotent (s : string) :
  clean_text (clean_text s) = clean_text s
  /\ (clean_text s = s <-> normalised s = true).
Proof.
  split.
  - apply normalised_fixed, clean_text_normalised.
  - split; [intros <-; apply clean_text_normalised | apply normalised_fixed].
Qed.

Lemma nonspace_cons (c : ascii) (s : string) :
  nonspace (String c s) = if isspace c then nonspace s else c :: nonspace s.
Proof. unfold nonspace. cbn. now destruct (isspace c). Qed.

Lemma nonspace_replace (s : string) :
  nonspace (replace newline space s) = nonspace s.
Proof.
  induction s as [|c r IH]; [reflexivity|].
  cbn [replace]. rewrite !nonspace_cons, IH.
  destruct (Ascii.eqb c newline) eqn:Hc; [|reflexivity].
  apply Ascii.eqb_eq in Hc. subst c. reflexivity.
Qed.

Lemma nonspace_sub_ws (s : string) :
  forall in_run, nonspace (sub_ws in_run s) = nonspace s.
Proof.
  induction s as [|c r IH]; intros in_run; [reflexivity|].
  cbn [sub_ws]. rewrite nonspace_cons. destruct (isspace c) eqn:Hc.
  - destruct in_run; [apply IH|]. rewrite nonspace_cons, isspace_space. apply IH.
  - now rewrite nonspace_cons, Hc, IH.
Qed.

Lemma nonspace_lstrip (s : string) : nonspace (lstrip s) = nonspace s.
Proof.
  induction s as [|c r IH]; [reflexivity|].
  cbn [lstrip]. rewrite nonspace_cons.
  destruct (isspace c) eqn:Hc; [exact IH|]. now rewrite nonspace_cons, Hc.
Qed.

Lemma nonspace_rstrip (s : string) : nonspace (rstrip s) = nonspace s.
Proof.
  induction s as [|c r IH]; [reflexivity|].
  rewrite rstrip_cons, (nonspace_cons c r), <- IH.
  destruct (rstrip r) as [|d t].
  - destruct (isspace c) eqn:Hc; [reflexivity|].
    now rewrite nonspace_cons, Hc.
  - now rewrite (nonspace_cons c (String d t)).
Qed.

(** The normalisation only touches whitespace: the other characters of a
    chunk come out unchanged, all of them and in the same order. *)
Theorem clean_text_keeps_nonspace (chunk : string) :
  nonspace (clean_text chunk) = nonspace chunk.
Proof.
  unfold clean_text, strip.
  now rewrite nonspace_rstrip, nonspace_lstrip, nonspace_sub_ws, nonspace_replace.
Qed.

End Normalisation.

(** ** Chunks of the PDF and Markdown chunkers *)

(** Every chunk text of the PDF and Markdown chunkers is normalised: its
    only whitespace characters are plain spaces (tabs, carriage returns and
    the like are gone), never two in a row, and none at either end. *)
Theorem pdf_md_text_normalised
    (pdf_pages : bytes -> result (list string))
    (new_splitter : Z -> Z -> result (string -> list string))
    (decode_ignore : bytes -> string)
    (md_header_split : string -> list Document)
    (file_bytes : bytes) (tag source : string) (chunk_size chunk_overlap : Z)
    (docs : list Chunk) (c : Chunk) :
  chunking_pdf pdf_pages new_splitter file_bytes tag source
    chunk_size chunk_overlap = Ok docs
  \/ chunking_md new_splitter decode_ignore md_header_split file_bytes
       tag source chunk_size chunk_overlap = Ok docs ->
  In c docs ->
  normalised (text c) = true.
Proof.
  intros [Hrun | Hrun] Hin.
  - unfold chunking_pdf in Hrun.
    destruct (pdf_pages file_bytes) as [pages|e]; [|discriminate].
    cbn [bind] in Hrun.
    destruct (new_splitter chunk_size chunk_overlap) as [split_text|e];
      [|discriminate].
    cbn [bind] in Hrun. injection Hrun as <-.
    destruct (pdf_documents_text _ _ _ _ _ _ Hin) as (page & chunk & _ & _ & _ & ->).
    apply clean_text_normalised.
  - unfold chunking_md in Hrun.
    destruct (new_splitter chunk_size chunk_overlap) as [split_text|e];
      [|discriminate].
    cbn [bind] in Hrun. injection Hrun as <-.
    destruct (md_documents_text _ _ _ _ _ Hin) as (doc & chunk & _ & _ & _ & ->).
    apply clean_text_normalised.
Qed.

Lemma pdf_md_text_normalised_witness :
  normalised "Intro line" = true.
Proof.
  apply (pdf_md_text_normalised Demo.pdf_pages Demo.new_splitter
           Demo.decode_ignore Demo.md_header_split
           ("Intro   line" ++ String newline ("  second" ++ String newline " "))
           "AI" "md" 500 50
           [mkEntry "Intro line" (mkMetadata "md" "ROOT" "AI");
            mkEntry "second" (mkMetadata "md" "ROOT" "AI")]
           (mkEntry "Intro line" (mkMetadata "md" "ROOT" "AI"))).
  - right. reflexivity.
  - left. reflexivity.
Defined.

Lemma pdf_documents_app (split_text : string -> list string)
    (tag source : string) (pre post : list string) :
  forall page_idx,
    pdf_documents split_text tag source page_idx (pre ++ post)
    = (pdf_documents split_text tag source page_idx pre
       ++ pdf_documents split_text tag source (page_idx + List.length pre) post)%list.
Proof.
  induction pre as [|page pre IH]; intros page_idx; cbn [pdf_documents app List.length].
  - now rewrite Nat.add_0_r.
  - rewrite IH.
    replace (S page_idx + List.length pre)%nat
      with (page_idx + S (List.length pre))%nat by lia.
    now rewrite app_assoc.
Qed.

(** Pages are numbered by their position in the file, pages without text
    included: the chunks of a page with text are the splitter's chunks of
    that page, in order, one for one, each located at "Page n" with [n] one
    more than the number of pages before it; the chunks of the other pages
    stand before and after them unchanged. *)
Theorem chunking_pdf_page_numbering
    (pdf_pages : bytes -> result (list string))
    (new_splitter : Z -> Z -> result (string -> list string))
    (file_bytes : bytes) (tag source : string) (chunk_size chunk_overlap : Z)
    (pre post : list string) (page : string)
    (split_text : string -> list string) :
  pdf_pages file_bytes = Ok (pre ++ page :: post)%list ->
  new_splitter chunk_size chunk_overlap = Ok split_text ->
  page <> "" ->
  chunking_pdf pdf_pages new_splitter file_bytes tag source
    chunk_size chunk_overlap
  = Ok (pdf_documents split_text tag source 0 pre
        ++ map (fun chunk =>
                  mkEntry (clean_text chunk)
                    (mkMetadata source
                       ("Page " ++ format_nat (List.length pre + 1)) tag))
               (split_text page)
        ++ pdf_documents split_text tag source (List.length pre + 1) post)%list.
Proof.
  intros Hpages Hnew Hpage. unfold chunking_pdf.
  rewrite Hpages. cbn [bind]. rewrite Hnew. cbn [bind].
  rewrite pdf_documents_app. cbn [pdf_documents Nat.add].
  destruct (String.eqb_spec page "") as [|_]; [contradiction|].
  replace (S (List.length pre)) with (List.length pre + 1)%nat by lia.
  reflexivity.
Qed.

Lemma chunking_pdf_page_numbering_witness :
  chunking_pdf Demo.pdf_pages Demo.new_splitter
    ("cover" ++ String "012"%char (String "012"%char "last  page"))
    "AI" "pdf" 500 50
  = Ok [mkEntry "cover" (mkMetadata "pdf" "Page 1" "AI");
        mkEntry "last page" (mkMetadata "pdf" "Page 3" "AI")].
Proof.
  apply (chunking_pdf_page_numbering Demo.pdf_pages Demo.new_splitter
           ("cover" ++ String "012"%char (String "012"%char "last  page"))
           "AI" "pdf" 500 50 ["cover"; ""] [] "last  page"
           (fun s => filter (fun x => negb (blank x)) (Demo.split_on newline s))).
  - reflexivity.
  - reflexivity.
  - discriminate.
Defined.

(** ** Metadata of the chunks *)

Lemma pdf_documents_metadata (split_text : string -> list string)
    (tag source : string) (pages : list string) :
  forall page_idx c,
    In c (pdf_documents split_text tag source page_idx pages) ->
    exists n,
      metadata c = mkMetadata source ("Page " ++ format_nat n) tag
      /\ (page_idx < n <= page_idx + List.length pages)%nat.
Proof.
  induction pages as [|page rest IH]; intros page_idx c; [intros []|].
  cbn [pdf_documents List.length]. intros Hin. apply in_app_or in Hin.
  destruct Hin as [Hin | Hin].
  - destruct (String.eqb page ""); [contradiction|].
    apply in_map_iff in Hin. destruct Hin as [chunk [<- _]].
    exists (page_idx + 1)%nat. split; [reflexivity | lia].
  - destruct (IH _ _ Hin) as (n & Hm & Hn). exists n. split; [exact Hm | lia].
Qed.

Lemma concat_not_empty (sep h : string) (t : list string) :
  h <> "" -> String.concat sep (h :: t) <> "".
Proof.
  destruct h as [|c h]; [easy|]. intros _.
  cbn [String.concat]. destruct t; discriminate.
Qed.

Lemma present_headers_not_empty (parts : list (option string)) :
  forall h, In h (present_headers parts) -> h <> "".
Proof.
  unfold present_headers. intros h Hin. apply in_flat_map in Hin.
  destruct Hin as [[s|] [_ Hs]]; [|contradiction].
  destruct (String.eqb_spec s "") as [|Hne]; [contradiction|].
  destruct Hs as [<- | []]. exact Hne.
Qed.

Lemma md_location_empty (headers : dict) :
  md_location headers = ""
  <-> present_headers [dict_get "h1" headers; dict_get "h2" headers;
                       dict_get "h3" headers; dict_get "h4" headers] = [].
Proof.
  unfold md_location.
  pose proof (present_headers_not_empty
                [dict_get "h1" headers; dict_get "h2" headers;
                 dict_get "h3" headers; dict_get "h4" headers]) as Hne.
  destruct (present_headers _) as [|h t]; [easy|].
  split; [|discriminate]. intros Hc. exfalso.
  apply (concat_not_empty " > " h t); [|exact Hc].
  apply Hne. now left.
Qed.

Lemma md_documents_metadata (split_text : string -> list string)
    (tag source : string) (md_docs : list Document) :
  forall c,
    In c (md_documents split_text tag source md_docs) ->
    exists loc,
      metadata c = mkMetadata source loc tag /\ loc <> ""
      /\ exists doc,
           In doc md_docs
           /\ (loc = md_location (doc_metadata doc)
               \/ (loc = "ROOT" /\ md_location (doc_metadata doc) = "")).
Proof.
  induction md_docs as [|doc rest IH]; intros c; [intros []|].
  cbn [md_documents]. intros Hin. apply in_app_or in Hin.
  destruct Hin as [Hin | Hin].
  - destruct (String.eqb (strip (page_content doc)) ""); [contradiction|].
    apply in_map_iff in Hin. destruct Hin as [chunk [<- _]].
    destruct (String.eqb_spec (md_location (doc_metadata doc)) "") as [He|Hne].
    + exists "ROOT". split; [reflexivity|]. split; [discriminate|].
      exists doc. split; [now left | now right].
    + exists (md_location (doc_metadata doc)).
      split; [reflexivity|]. split; [exact Hne|].
      exists doc. split; [now left | now left].
  - destruct (IH _ Hin) as (loc & Hm & Hne & doc0 & Hd & Hloc).
    exists loc. split; [exact Hm|]. split; [exact Hne|].
    exists doc0. split; [now right | exact Hloc].
Qed.

Lemma json_documents_metadata (repr : json -> string)
    (question_iter answer_iter : list string)
    (tag source : string) (items : list json) :
  forall idx c,
    In c (json_documents repr question_iter answer_iter tag source idx items) ->
    exists n,
      metadata c = mkMetadata source ("Q&A #" ++ format_nat n) tag
      /\ (idx <= n < idx + List.length items)%nat.
Proof.
  induction items as [|item rest IH]; intros idx c; [intros []|].
  cbn [json_documents List.length]. intros Hin. apply in_app_or in Hin.
  destruct Hin as [Hin | Hin].
  - destruct item as [| | | | |l|d]; try contradiction.
    cbn in Hin.
    destruct (extract_qa repr question_iter answer_iter d) as [[q a]|];
      [|contradiction].
    destruct Hin as [<- | []]. exists idx. split; [reflexivity | lia].
  - destruct (IH _ _ Hin) as (n & Hm & Hn). exists n. split; [exact Hm | lia].
Qed.

(** Every chunk that [chunking_file] returns carries the tag it was called
    with and the source label of the URL, and a location that is not empty. *)
Theorem chunking_file_metadata
    (repr : json -> string) (question_iter answer_iter : list string)
    (urlparse_path : string -> result string)
    (pdf_pages : bytes -> result (list string))
    (new_splitter : Z -> Z -> result (string -> list string))
    (decode_ignore : bytes -> string)
    (md_header_split : string -> list Document)
    (json_loads : bytes -> string + json)
    (read_file_from_url : string -> result bytes)
    (tag file_path : string) (chunk_size chunk_overlap : Z)
    (docs : list Chunk) :
  chunking_file repr question_iter answer_iter urlparse_path pdf_pages
    new_splitter decode_ignore md_header_split json_loads read_file_from_url
    tag file_path chunk_size chunk_overlap = Ok (Some docs) ->
  exists src,
    extract_source_from_url urlparse_path file_path = Ok src
    /\ forall c, In c docs ->
         exists loc, metadata c = mkMetadata src loc tag /\ loc <> "".
Proof.
  unfold chunking_file. intros Hrun.
  destruct (read_file_from_url file_path) as [file_bytes|e]; [|discriminate].
  cbn [bind] in Hrun.
  destruct (extract_source_from_url urlparse_path file_path) as [src|e];
    [|discriminate].
  cbn [bind] in Hrun. exists src. split; [reflexivity|]. intros c Hin.
  destruct (endswith file_path ".pdf").
  { unfold chunking_pdf in Hrun.
    destruct (pdf_pages file_bytes) as [pages|e]; [|discriminate].
    cbn [bind] in Hrun.
    destruct (new_splitter chunk_size chunk_overlap) as [split_text|e];
      [|discriminate].
    cbn [bind] in Hrun. injection Hrun as <-.
    destruct (pdf_documents_metadata _ _ _ _ _ _ Hin) as (n & -> & _).
    eexists. split; [reflexivity | discriminate]. }
  destruct (endswith file_path ".md").
  { unfold chunking_md in Hrun.
    destruct (new_splitter chunk_size chunk_overlap) as [split_text|e];
      [|discriminate].
    cbn [bind] in Hrun. injection Hrun as <-.
    destruct (md_documents_metadata _ _ _ _ _ Hin) as (loc & -> & Hne & _).
    exists loc. split; [reflexivity | exact Hne]. }
  destruct (endswith file_path ".json"); [|discriminate].
  unfold chunking_json in Hrun.
  destruct (json_loads file_bytes) as [e|data]; [discriminate|].
  destruct (json_items data) as [items|e]; [|discriminate].
  cbn [bind] in Hrun.
  destruct (json_documents repr question_iter answer_iter tag src 1 items)
    as [|c0 docs0] eqn:Hdocs; [discriminate|].
  injection Hrun as <-. rewrite <- Hdocs in Hin.
  destruct (json_documents_metadata _ _ _ _ _ _ _ _ Hin) as (n & -> & _).
  eexists. split; [reflexivity | discriminate].
Qed.

Lemma chunking_file_metadata_witness :
  exists src,
    extract_source_from_url Demo.urlparse_path
      "https://kb.example.com/docs/guide.md" = Ok src
    /\ forall c,
         In c [mkEntry "Intro line" (mkMetadata "md" "ROOT" "AI");
               mkEntry "second" (mkMetadata "md" "ROOT" "AI")] ->
         exists loc, metadata c = mkMetadata src loc "AI" /\ loc <> "".
Proof.
  apply (chunking_file_metadata Demo.repr Demo.question_iter Demo.answer_iter
           Demo.urlparse_path Demo.pdf_pages Demo.new_splitter
           Demo.decode_ignore Demo.md_header_split Demo.json_loads
           Demo.read_file_from_url "AI" "https://kb.example.com/docs/guide.md"
           500 50).
  reflexivity.
Defined.

(** ** Counting and numbering of the Q&A chunks *)

Lemma to_uint_not_nil (n : nat) : Nat.to_uint n <> Decimal.Nil.
Proof.
  rewrite <- (Unsigned.of_to n) at 1.
  rewrite Unsigned.to_of. apply unorm_nonnil.
Qed.

Lemma format_nat_inj (n m : nat) : format_nat n = format_nat m -> n = m.
Proof.
  unfold format_nat. intros H. apply Unsigned.to_uint_inj.
  pose proof (NilZero.usu _ (to_uint_not_nil n)) as Hn.
  pose proof (NilZero.usu _ (to_uint_not_nil m)) as Hm.
  rewrite H in Hn. congruence.
Qed.

Lemma json_documents_length (repr : json -> string)
    (question_iter answer_iter : list string)
    (tag source : string) (items : list json) :
  forall idx,
    List.length (json_documents repr question_iter answer_iter tag source idx items)
    = List.length (filter (valid_item repr question_iter answer_iter) items).
Proof.
  induction items as [|item rest IH]; intros idx; [reflexivity|].
  cbn [json_documents filter]. rewrite length_app, IH.
  destruct item as [| | | | |l|d]; try reflexivity.
  cbn. destruct (extract_qa repr question_iter answer_iter d) as [[q a]|];
    reflexivity.
Qed.

Lemma json_documents_locations_nodup (repr : json -> string)
    (question_iter answer_iter : list string)
    (tag source : string) (items : list json) :
  forall idx,
    NoDup (map (fun c : Chunk => location (metadata c))
             (json_documents repr question_iter answer_iter tag source idx items)).
Proof.
  induction items as [|item rest IH]; intros idx; [constructor|].
  cbn [json_documents].
  assert (Hone : json_document repr question_iter answer_iter tag source idx item = []
                 \/ exists t, json_document repr question_iter answer_iter tag source
                                idx item
                              = [mkEntry t (mkMetadata source
                                              ("Q&A #" ++ format_nat idx) tag)]).
  { destruct item as [| | | | |l|d]; try (now left).
    cbn. destruct (extract_qa repr question_iter answer_iter d) as [[q a]|];
      [right; eexists; reflexivity | now left]. }
  destruct Hone as [-> | [t ->]]; [apply IH|].
  cbn [app map metadata location]. constructor; [|apply IH].
  intros Hin. apply in_map_iff in Hin. destruct Hin as (c & Hloc & Hc).
  destruct (json_documents_metadata _ _ _ _ _ _ _ _ Hc) as (n & Hm & Hn).
  rewrite Hm in Hloc. cbn in Hloc. injection Hloc as Hloc.
  apply format_nat_inj in Hloc. lia.
Qed.

(** The structured Q&A chunker returns as many chunks as there are valid
    items, at least one and no more than there are items, and no two of them
    have the same location. *)
Theorem chunking_json_count_and_locations
    (repr : json -> string) (question_iter answer_iter : list string)
    (json_loads : bytes -> string + json)
    (file_bytes : bytes) (tag source : string)
    (data : json) (items : list json) (docs : list Chunk) :
  json_loads file_bytes = inr data ->
  json_items data = Ok items ->
  chunking_json repr question_iter answer_iter json_loads file_bytes tag source
  = Ok docs ->
  List.length docs
  = List.length (filter (valid_item repr question_iter answer_iter) items)
  /\ (1 <= List.length docs <= List.length items)%nat
  /\ NoDup (map (fun c : Chunk => location (metadata c)) docs).
Proof.
  intros Hload Hitems. unfold chunking_json. rewrite Hload, Hitems. cbn [bind].
  destruct (json_documents repr question_iter answer_iter tag source 1 items)
    as [|c0 docs0] eqn:Hdocs; [discriminate|].
  intros [= <-]. rewrite <- Hdocs.
  pose proof (json_documents_length repr question_iter answer_iter tag source
                items 1) as Hlen.
  pose proof (filter_length_le (valid_item repr question_iter answer_iter) items)
    as Hle.
  split; [exact Hlen|]. split.
  - rewrite Hdocs in Hlen |- *. cbn [List.length] in *. lia.
  - apply json_documents_locations_nodup.
Qed.

Lemma chunking_json_count_and_locations_witness :
  List.length [mkEntry ("Question: Q1" ++ String newline "Answer: A1")
                 (mkMetadata "json" "Q&A #1" "AI")]
  = List.length
      (filter (valid_item Demo.repr Demo.question_iter Demo.answer_iter)
         [JDict [("question", JStr "Q1"); ("answer", JStr "A1")];
          JDict [("q", JStr "Q2")]]).
Proof.
  apply (chunking_json_count_and_locations Demo.repr Demo.question_iter
           Demo.answer_iter Demo.json_loads Demo.faq_json "AI" "json"
           (JDict [("qa", JList [JDict [("question", JStr "Q1"); ("answer", JStr "A1")];
                                 JDict [("q", JStr "Q2")]])])
           [JDict [("question", JStr "Q1"); ("answer", JStr "A1")];
            JDict [("q", JStr "Q2")]]
           [mkEntry ("Question: Q1" ++ String newline "Answer: A1")
              (mkMetadata "json" "Q&A #1" "AI")]
           eq_refl eq_refl eq_refl).
Defined.

(** ** More on question and answer extraction *)

(** What [extract_qa] returns has no whitespace at either end, and it comes
    from values that are both true in the sense of [if]. *)
Theorem extract_qa_stripped
    (repr : json -> string) (question_iter answer_iter : list string)
    (item : list (string * json)) (question answer : string) :
  extract_qa repr question_iter answer_iter item = Some (question, answer) ->
  first_isspace question = false /\ last_isspace question = false
  /\ first_isspace answer = false /\ last_isspace answer = false
  /\ truthy (next_present question_iter item) = true
  /\ truthy (next_present answer_iter item) = true.
Proof.
  unfold extract_qa.
  destruct (truthy (next_present question_iter item));
    destruct (truthy (next_present answer_iter item)); try discriminate.
  cbn. intros [= <- <-].
  destruct (strip_ends (str repr (next_present question_iter item))) as [-> ->].
  destruct (strip_ends (str repr (next_present answer_iter item))) as [-> ->].
  repeat split.
Qed.

Lemma extract_qa_stripped_witness :
  first_isspace "MCP?" = false /\ last_isspace "MCP?" = false
  /\ first_isspace "A protocol" = false /\ last_isspace "A protocol" = false
  /\ truthy (next_present Demo.question_iter
               [("q", JStr "  MCP? "); ("a", JStr "A protocol ")]) = true
  /\ truthy (next_present Demo.answer_iter
               [("q", JStr "  MCP? "); ("a", JStr "A protocol ")]) = true.
Proof.
  apply (extract_qa_stripped Demo.repr Demo.question_iter Demo.answer_iter
           [("q", JStr "  MCP? "); ("a", JStr "A protocol ")]
           "MCP?" "A protocol").
  reflexivity.
Defined.

(** A question that is a non-empty string of whitespace only does not make
    the item skipped: the item gives a chunk whose question is empty. *)
Theorem blank_question_is_kept
    (repr : json -> string) (question_iter answer_iter : list string)
    (tag source : string) (idx : nat)
    (item : list (string * json)) (s : string) :
  next_present question_iter item = JStr s ->
  s <> "" -> blank s = true ->
  truthy (next_present answer_iter item) = true ->
  json_document repr question_iter answer_iter tag source idx (JDict item)
  = [mkEntry
       ("Question: "
        ++ String newline
             ("Answer: " ++ strip (str repr (next_present answer_iter item))))
       (mkMetadata source ("Q&A #" ++ format_nat idx) tag)].
Proof.
  intros Hq Hne Hblank Ha. cbn [json_document]. unfold extract_qa.
  rewrite Hq, Ha. cbn [truthy str].
  destruct (String.eqb_spec s "") as [|_]; [contradiction|].
  cbn [negb orb]. now rewrite (blank_strip s Hblank).
Qed.

Lemma blank_question_is_kept_witness :
  json_document Demo.repr Demo.question_iter Demo.answer_iter "AI" "faq" 4
    (JDict [("question", JStr "   "); ("answer", JStr "yes")])
  = [mkEntry ("Question: " ++ String newline "Answer: yes")
       (mkMetadata "faq" "Q&A #4" "AI")].
Proof.
  apply (blank_question_is_kept Demo.repr Demo.question_iter Demo.answer_iter
           "AI" "faq" 4 [("question", JStr "   "); ("answer", JStr "yes")] "   ").
  - reflexivity.
  - discriminate.
  - reflexivity.
  - reflexivity.
Defined.

(** ** More on the source label *)

Lemma split1_some (sep : ascii) (s : string) :
  forall h t,
    split1 sep s = (h, Some t) ->
    s = h ++ String sep t /\ contains sep h = false.
Proof.
  unfold contains. induction s as [|c r IH]; intros h t; [discriminate|].
  cbn [split1]. destruct (Ascii.eqb_spec c sep) as [-> | Hne].
  - intros [= <- <-]. now split.
  - destruct (split1 sep r) as [h' t'] eqn:Hr. intros [= <- ->].
    destruct (IH h' t eq_refl) as [-> Hh]. split; [reflexivity|].
    cbn [list_ascii_of_string existsb]. rewrite Hh, orb_false_r.
    apply Ascii.eqb_neq. congruence.
Qed.

Lemma basename_no_slash (p : string) : contains slash (basename p) = false.
Proof.
  induction p as [|c r IH]; [reflexivity|].
  cbn [basename]. fold (contains slash r).
  destruct (contains slash r) eqn:Hr; [exact IH|].
  destruct (Ascii.eqb c slash) eqn:Hc; [exact Hr|].
  unfold contains in *. cbn [list_ascii_of_string existsb].
  now rewrite Ascii.eqb_sym, Hc, Hr.
Qed.

Lemma split1_none_inv (sep : ascii) (s : string) :
  forall h, split1 sep s = (h, None) -> contains sep s = false.
Proof.
  unfold contains. induction s as [|c r IH]; intros h; [reflexivity|].
  cbn [split1 list_ascii_of_string existsb].
  destruct (Ascii.eqb_spec c sep) as [|Hne]; [discriminate|].
  destruct (split1 sep r) as [h2 t2] eqn:Hr. intros [= <- ->].
  rewrite (IH h2 eq_refl), orb_false_r.
  apply Ascii.eqb_neq. congruence.
Qed.

(** A source label is returned exactly when [urlparse] takes the URL apart
    and the basename of its path is [stem.label] with no dot in [stem]; the
    label never has a slash; and the call fails in two ways only: with the
    error that [urlparse] itself raises on the URL, or with the [IndexError]
    of a basename without a dot. *)
Theorem extract_source_characterised
    (urlparse_path : string -> result string) (url : string) :
  (forall src,
     extract_source_from_url urlparse_path url = Ok src
     <-> exists path stem,
           urlparse_path url = Ok path
           /\ basename path = stem ++ String dot src
           /\ contains dot stem = false)
  /\ (forall src,
        extract_source_from_url urlparse_path url = Ok src ->
        contains slash src = false)
  /\ (forall e,
        extract_source_from_url urlparse_path url = Raise e
        <-> urlparse_path url = Raise e
            \/ (exists path,
                  urlparse_path url = Ok path /\ e = IndexError
                  /\ contains dot (basename path) = false)).
Proof.
  assert (Hfwd : forall src,
            extract_source_from_url urlparse_path url = Ok src ->
            exists path stem,
              urlparse_path url = Ok path
              /\ basename path = stem ++ String dot src
              /\ contains dot stem = false).
  { unfold extract_source_from_url. intros src.
    destruct (urlparse_path url) as [path|e0]; [|discriminate]. cbn [bind].
    destruct (split1 dot (basename path)) as [h [t|]] eqn:Hs; [|discriminate].
    intros [= ->]. exists path, h. split; [reflexivity|].
    now apply split1_some. }
  split; [|split].
  - intros src. split; [apply Hfwd|].
    intros (path & stem & Hpath & Hname & Hstem).
    unfold extract_source_from_url. rewrite Hpath. cbn [bind].
    now rewrite Hname, (split1_first dot stem src Hstem).
  - intros src Hsrc. destruct (Hfwd src Hsrc) as (path & stem & _ & Hname & _).
    pose proof (basename_no_slash path) as Hns.
    rewrite Hname, contains_append in Hns.
    apply orb_false_elim in Hns. destruct Hns as [_ Hns].
    unfold contains in *. cbn [list_ascii_of_string existsb] in Hns.
    apply orb_false_elim in Hns. apply Hns.
  - intros e. unfold extract_source_from_url.
    destruct (urlparse_path url) as [path|e0]; cbn [bind].
    + destruct (split1 dot (basename path)) as [h [t|]] eqn:Hs.
      * split; [discriminate|]. intros [H | (p & [= <-] & _ & Hd)]; [discriminate|].
        destruct (split1_some dot _ _ _ Hs) as [Hname _].
        rewrite Hname, contains_append in Hd.
        apply orb_false_elim in Hd. destruct Hd as [_ Hd].
        unfold contains in Hd. cbn [list_ascii_of_string existsb] in Hd.
        rewrite Ascii.eqb_refl in Hd. discriminate.
      * split.
        -- intros [= <-]. right. exists path.
           split; [reflexivity|]. split; [reflexivity|].
           exact (split1_none_inv dot _ _ Hs).
        -- intros [H | (p & _ & -> & _)]; [discriminate | reflexivity].
    + split.
      * intros [= <-]. now left.
      * intros [[= <-] | (p & H & _)]; [reflexivity | discriminate].
Qed.

Lemma extract_source_characterised_witness :
  contains slash "tar.gz" = false.
Proof.
  apply (proj1 (proj2 (extract_source_characterised Demo.urlparse_path
                         "https://kb.example.com/files/v1.2/archive.tar.gz#top"))).
  reflexivity.
Defined.

Example urlparse_error_propagates :
  extract_source_from_url Demo.urlparse_path "http://[::1/a.pdf"
  = Raise (ValueError "Invalid IPv6 URL").
Proof. reflexivity. Qed.

(** ** More on retrieval *)

Lemma effective_k_closed_form (k : Z) : effective_k k = Z.max 1 (Z.min k 20).
Proof.
  unfold effective_k. destruct (Z.ltb_spec 0 k) as [Hk|Hk]; [|lia].
  rewrite (arithmetic_form_is_min k Hk). lia.
Qed.

(** Asking for more never lowers the effective [k], and clamping twice is
    clamping once. *)
Theorem effective_k_monotone (k1 k2 : Z) :
  k1 <= k2 ->
  effective_k k1 <= effective_k k2
  /\ effective_k (effective_k k1) = effective_k k1.
Proof. intros Hle. rewrite !effective_k_closed_form. lia. Qed.

Lemma effective_k_monotone_witness :
  effective_k 3 <= effective_k 40
  /\ effective_k (effective_k 3) = effective_k 3.
Proof. apply (effective_k_monotone 3 40). lia. Defined.

(** The tool never ends with a [TimeoutError]: one that the search itself
    raises in time is answered with the empty list too; any other exception
    of the search comes out unchanged. *)
Theorem retrieval_errors
    (search : string -> Z -> option dict -> awaited (list Document))
    (query : string) (k : Z) (tag : option string) :
  retrieval search query k tag <> Raise TimeoutError
  /\ ((elapsed (search query (effective_k k) (tag_filter tag)) <= 5)%Q ->
      outcome (search query (effective_k k) (tag_filter tag)) = Raise TimeoutError ->
      retrieval search query k tag = Ok [])
  /\ (forall e,
        (elapsed (search query (effective_k k) (tag_filter tag)) <= 5)%Q ->
        outcome (search query (effective_k k) (tag_filter tag)) = Raise e ->
        e <> TimeoutError ->
        retrieval search query k tag = Raise e).
Proof.
  unfold retrieval, retrieve_relevant_documents, wait_for. cbn [elapsed outcome].
  split; [|split].
  - destruct (Qle_bool _ 5); [|discriminate].
    destruct (outcome _) as [docs|e]; cbn [bind]; [discriminate|].
    destruct e; discriminate.
  - intros Hin Hout. apply Qle_bool_iff in Hin. now rewrite Hin, Hout.
  - intros e Hin Hout Hne. apply Qle_bool_iff in Hin. rewrite Hin, Hout.
    cbn [bind]. destruct e; try reflexivity. now elim Hne.
Qed.

Lemma retrieval_errors_witness :
  retrieval (fun _ _ _ => mkAwaited 1 (Raise (OtherError "OperationalError")))
    "what is MCP" 5 None
  = Raise (OtherError "OperationalError").
Proof.
  apply (proj2 (proj2 (retrieval_errors
                         (fun _ _ _ =>
                            mkAwaited 1 (Raise (OtherError "OperationalError")))
                         "what is MCP" 5 None))
           (OtherError "OperationalError")).
  - vm_compute. discriminate.
  - reflexivity.
  - discriminate.
Defined.

Lemma table_search_at_most_k (table : list Document) (delay : Q) :
  returns_at_most_k (table_search table delay).
Proof.
  intros query k flt docs Hk Hout. cbn in Hout. injection Hout as <-.
  pose proof (firstn_le_length (Z.to_nat k) (filter (matches_filter flt) table)).
  lia.
Qed.

(** Against a store that returns at most [k] documents, whatever the tool
    returns is either one entry per document that the store returned in time
    for the effective [k], in the same order, or the empty list of a timeout;
    so it is never more than the effective [k], hence never more than 20
    entries, whatever [k] was asked. *)
Theorem retrieval_at_most_20
    (search : string -> Z -> option dict -> awaited (list Document))
    (query : string) (k : Z) (tag : option string)
    (results : list (Entry dict)) :
  returns_at_most_k search ->
  retrieval search query k tag = Ok results ->
  ((exists docs,
      (elapsed (search query (effective_k k) (tag_filter tag)) <= 5)%Q
      /\ outcome (search query (effective_k k) (tag_filter tag)) = Ok docs
      /\ results = map retrieved_text docs
      /\ List.length results = List.length docs)
   \/ (results = []
       /\ ((5 < elapsed (search query (effective_k k) (tag_filter tag)))%Q
           \/ outcome (search query (effective_k k) (tag_filter tag))
              = Raise TimeoutError)))
  /\ Z.of_nat (List.length results) <= effective_k k
  /\ (List.length results <= 20)%nat.
Proof.
  intros Hstore Hrun.
  pose proof (effective_k_range k) as Hrange.
  revert Hrun.
  unfold retrieval, retrieve_relevant_documents, wait_for. cbn [elapsed outcome].
  destruct (Qle_bool (elapsed (search query (effective_k k) (tag_filter tag))) 5)
    eqn:Hle.
  - apply Qle_bool_iff in Hle.
    destruct (outcome (search query (effective_k k) (tag_filter tag)))
      as [docs|e] eqn:Hout; cbn [bind].
    + intros [= <-].
      pose proof (Hstore query (effective_k k) (tag_filter tag) docs
                    ltac:(lia) Hout) as Hmost.
      split; [|rewrite length_map; lia].
      left. exists docs. split; [exact Hle|].
      split; [reflexivity|]. split; [reflexivity | apply length_map].
    + destruct e; try discriminate. intros [= <-]. cbn [List.length].
      split; [|lia]. right. split; [reflexivity | now right].
  - intros [= <-]. cbn [List.length]. split; [|lia].
    right. split; [reflexivity|]. left.
    apply Qnot_le_lt. intros Hc. apply Qle_bool_iff in Hc. congruence.
Qed.

Lemma retrieval_at_most_20_witness :
  Z.of_nat (List.length
              [mkEntry "MCP is a protocol"
                 [("source", "md"); ("location", "ROOT"); ("tag", "A")]])
  <= effective_k 1
  /\ (List.length
        [mkEntry "MCP is a protocol"
           [("source", "md"); ("location", "ROOT"); ("tag", "A")]] <= 20)%nat.
Proof.
  apply (proj2 (retrieval_at_most_20 (table_search demo_table 1) "what is MCP"
                  1 None
                  [mkEntry "MCP is a protocol"
                     [("source", "md"); ("location", "ROOT"); ("tag", "A")]]
                  (table_search_at_most_k demo_table 1) eq_refl)).
Defined.

(** ** How [chunking_file] composes its parts *)

Lemma substring_whole (s : string) : substring 0 (String.length s) s = s.
Proof. induction s as [|c r IH]; [reflexivity|]. cbn. now rewrite IH. Qed.

Lemma substring_split (k : nat) :
  forall s, (k <= String.length s)%nat ->
    substring 0 k s ++ substring k (String.length s - k) s = s.
Proof.
  induction k as [|k IH]; intros s Hk.
  - rewrite Nat.sub_0_r, substring_whole. now destruct s.
  - destruct s as [|c r]; [cbn in Hk; lia|].
    cbn [substring String.length Nat.sub append]. f_equal.
    apply IH. cbn in Hk. lia.
Qed.

Lemma endswith_append (s suffix : string) :
  endswith s suffix = true -> exists pre, s = pre ++ suffix.
Proof.
  unfold endswith. intros H. apply andb_true_iff in H. destruct H as [Hle Heq].
  apply Nat.leb_le in Hle. apply String.eqb_eq in Heq.
  pose proof (substring_split (String.length s - String.length suffix) s
                ltac:(lia)) as Hsplit.
  replace (String.length s - (String.length s - String.length suffix))%nat
    with (String.length suffix) in Hsplit by lia.
  rewrite Heq in Hsplit.
  exists (substring 0 (String.length s - String.length suffix) s).
  now symmetry.
Qed.

Lemma last_char_append (pre s : string) :
  s <> "" -> last_char (pre ++ s) = last_char s.
Proof.
  intros Hs. induction pre as [|c r IH]; [reflexivity|].
  cbn [append]. destruct (r ++ s) as [|d t] eqn:Hrs.
  - destruct r; [cbn in Hrs; contradiction | discriminate].
  - exact IH.
Qed.

Lemma endswith_last_char (s suffix : string) :
  suffix <> "" -> endswith s suffix = true -> last_char s = last_char suffix.
Proof.
  intros Hne H. destruct (endswith_append s suffix H) as [pre ->].
  now apply last_char_append.
Qed.

(** No path ends with two of the three suffixes. *)
Lemma suffixes_exclusive (s : string) :
  (endswith s ".pdf" = true -> endswith s ".md" = false /\ endswith s ".json" = false)
  /\ (endswith s ".md" = true -> endswith s ".pdf" = false /\ endswith s ".json" = false)
  /\ (endswith s ".json" = true -> endswith s ".pdf" = false /\ endswith s ".md" = false).
Proof.
  assert (Hpdf := endswith_last_char s ".pdf").
  assert (Hmd := endswith_last_char s ".md").
  assert (Hjson := endswith_last_char s ".json").
  destruct (endswith s ".pdf"), (endswith s ".md"), (endswith s ".json");
    repeat split; try reflexivity; try discriminate; exfalso;
    try (specialize (Hpdf ltac:(discriminate) eq_refl));
    try (specialize (Hmd ltac:(discriminate) eq_refl));
    try (specialize (Hjson ltac:(discriminate) eq_refl));
    cbn in *; congruence.
Qed.

(** [chunking_file] ends with the error of the fetch, else with the error of
    the source label, else with exactly what the chunker for the suffix of
    the path gives, errors included; the suffix picks one chunker and the
    order of the three tests does not matter. *)
Theorem chunking_file_dispatch
    (repr : json -> string) (question_iter answer_iter : list string)
    (urlparse_path : string -> result string)
    (pdf_pages : bytes -> result (list string))
    (new_splitter : Z -> Z -> result (string -> list string))
    (decode_ignore : bytes -> string)
    (md_header_split : string -> list Document)
    (json_loads : bytes -> string + json)
    (read_file_from_url : string -> result bytes)
    (tag file_path : string) (chunk_size chunk_overlap : Z) :
  let run :=
    chunking_file repr question_iter answer_iter urlparse_path pdf_pages
      new_splitter decode_ignore md_header_split json_loads read_file_from_url
      tag file_path chunk_size chunk_overlap in
  (forall e, read_file_from_url file_path = Raise e -> run = Raise e)
  /\ (forall file_bytes e,
        read_file_from_url file_path = Ok file_bytes ->
        extract_source_from_url urlparse_path file_path = Raise e ->
        run = Raise e)
  /\ (forall file_bytes src,
        read_file_from_url file_path = Ok file_bytes ->
        extract_source_from_url urlparse_path file_path = Ok src ->
        (endswith file_path ".pdf" = true ->
         run = bind (chunking_pdf pdf_pages new_splitter file_bytes tag src
                       chunk_size chunk_overlap)
                    (fun docs => Ok (Some docs)))
        /\ (endswith file_path ".md" = true ->
            run = bind (chunking_md new_splitter decode_ignore md_header_split
                          file_bytes tag src chunk_size chunk_overlap)
                       (fun docs => Ok (Some docs)))
        /\ (endswith file_path ".json" = true ->
            run = bind (chunking_json repr question_iter answer_iter json_loads
                          file_bytes tag src)
                       (fun docs => Ok (Some docs)))).
Proof.
  cbv zeta. unfold chunking_file.
  destruct (suffixes_exclusive file_path) as (Hpdf & Hmd & Hjson).
  split; [|split].
  - intros e ->. reflexivity.
  - intros file_bytes e -> ->. reflexivity.
  - intros file_bytes src -> ->. cbn [bind]. split; [|split].
    + intros H. now rewrite H.
    + intros H. destruct (Hmd H) as [-> _]. now rewrite H.
    + intros H. destruct (Hjson H) as [-> ->]. now rewrite H.
Qed.

Lemma chunking_file_dispatch_witness :
  Demo.chunking_file "AI" "https://kb.example.com/docs/empty.json" 500 50
  = bind (chunking_json Demo.repr Demo.question_iter Demo.answer_iter
            Demo.json_loads Demo.empty_item_json "AI" "json")
         (fun docs => Ok (Some docs)).
Proof.
  apply (proj2 (proj2 (proj2 (proj2
           (chunking_file_dispatch Demo.repr Demo.question_iter Demo.answer_iter
              Demo.urlparse_path Demo.pdf_pages Demo.new_splitter
              Demo.decode_ignore Demo.md_header_split Demo.json_loads
              Demo.read_file_from_url "AI"
              "https://kb.example.com/docs/empty.json" 500 50))
           Demo.empty_item_json "json" eq_refl eq_refl))).
  reflexivity.
Defined.

(** ** Sections of a Markdown file *)

Lemma md_documents_app (split_text : string -> list string)
    (tag source : string) (pre post : list Document) :
  md_documents split_text tag source (pre ++ post)
  = (md_documents split_text tag source pre
     ++ md_documents split_text tag source post)%list.
Proof.
  induction pre as [|doc pre IH]; [reflexivity|].
  cbn [md_documents app]. now rewrite IH, app_assoc.
Qed.

(** A section whose body is not blank gives the splitter's chunks of its
    stripped body, in order, one for one, all at one location: the headings
    of the section that are present and not empty, from h1 to h4, joined by
    " > ", or "ROOT" when there is none.  The chunks of the other sections
    stand before and after them unchanged. *)
Theorem chunking_md_section
    (new_splitter : Z -> Z -> result (string -> list string))
    (decode_ignore : bytes -> string)
    (md_header_split : string -> list Document)
    (file_bytes : bytes) (tag source : string) (chunk_size chunk_overlap : Z)
    (pre post : list Document) (doc : Document)
    (split_text : string -> list string) :
  md_header_split (decode_ignore file_bytes) = (pre ++ doc :: post)%list ->
  new_splitter chunk_size chunk_overlap = Ok split_text ->
  blank (page_content doc) = false ->
  let headings :=
    present_headers
      [dict_get "h1" (doc_metadata doc); dict_get "h2" (doc_metadata doc);
       dict_get "h3" (doc_metadata doc); dict_get "h4" (doc_metadata doc)] in
  let loc :=
    match headings with
    | [] => "ROOT"
    | _ => String.concat " > " headings
    end in
  loc <> ""
  /\ chunking_md new_splitter decode_ignore md_header_split file_bytes
       tag source chunk_size chunk_overlap
     = Ok (md_documents split_text tag source pre
           ++ map (fun chunk =>
                     mkEntry (clean_text chunk) (mkMetadata source loc tag))
                  (split_text (strip (page_content doc)))
           ++ md_documents split_text tag source post)%list.
Proof.
  intros Hsplit Hnew Hbody headings loc.
  assert (Hstrip : strip (page_content doc) <> "").
  { unfold strip. apply rstrip_not_empty. now rewrite lstrip_blank. }
  assert (Hloc : (if String.eqb (md_location (doc_metadata doc)) ""
                  then "ROOT" else md_location (doc_metadata doc)) = loc).
  { pose proof (md_location_empty (doc_metadata doc)) as Hempty.
    fold headings in Hempty. unfold loc, md_location. fold headings.
    unfold md_location in Hempty. fold headings in Hempty.
    destruct (String.eqb_spec (String.concat " > " headings) "") as [He|Hne].
    - now rewrite (proj1 Hempty He).
    - destruct headings; [now elim Hne | reflexivity]. }
  split.
  - rewrite <- Hloc.
    destruct (String.eqb_spec (md_location (doc_metadata doc)) "");
      [discriminate | assumption].
  - unfold chunking_md. rewrite Hsplit, Hnew. cbn [bind].
    rewrite md_documents_app. cbn [md_documents].
    destruct (String.eqb_spec (strip (page_content doc)) "") as [|_];
      [contradiction|].
    now rewrite Hloc.
Qed.

Lemma chunking_md_section_witness :
  chunking_md Demo.new_splitter Demo.decode_ignore
    (fun _ => [mkDocument "lead" []; mkDocument " " [("h1", "A")];
               mkDocument ("  body  of B" ++ String newline "")
                 [("h1", "A"); ("h2", "B"); ("h3", "")]])
    "ignored" "AI" "md" 500 50
  = Ok [mkEntry "lead" (mkMetadata "md" "ROOT" "AI");
        mkEntry "body of B" (mkMetadata "md" "A > B" "AI")].
Proof.
  apply (proj2 (chunking_md_section Demo.new_splitter Demo.decode_ignore
                  (fun _ => [mkDocument "lead" []; mkDocument " " [("h1", "A")];
                             mkDocument ("  body  of B" ++ String newline "")
                               [("h1", "A"); ("h2", "B"); ("h3", "")]])
                  "ignored" "AI" "md" 500 50
                  [mkDocument "lead" []; mkDocument " " [("h1", "A")]] []
                  (mkDocument ("  body  of B" ++ String newline "")
                     [("h1", "A"); ("h2", "B"); ("h3", "")])
                  (fun s => filter (fun x => negb (blank x))
                              (Demo.split_on newline s))
                  eq_refl eq_refl eq_refl)).
Defined.

(** ** Errors of the structured Q&A chunker *)

(** The structured Q&A chunker fails in three ways only, each a
    [ValueError]: the bytes are not JSON, the JSON is neither an object nor
    an array, or no item is valid.  An object is read as its "qa" array when
    it has one and as a single item otherwise, so it never fails on its
    shape. *)
Theorem chunking_json_errors
    (repr : json -> string) (question_iter answer_iter : list string)
    (json_loads : bytes -> string + json)
    (file_bytes : bytes) (tag source : string) (e : exn) :
  chunking_json repr question_iter answer_iter json_loads file_bytes tag source
  = Raise e ->
  (exists msg,
     json_loads file_bytes = inl msg
     /\ e = ValueError ("Invalid JSON file: " ++ msg))
  \/ (exists data,
        json_loads file_bytes = inr data
        /\ (forall d, data <> JDict d) /\ (forall l, data <> JList l)
        /\ e = ValueError "JSON must be dict or list[dict]")
  \/ (exists data items,
        json_loads file_bytes = inr data /\ json_items data = Ok items
        /\ filter (valid_item repr question_iter answer_iter) items = []
        /\ e = ValueError "No valid Q&A found in JSON").
Proof.
  unfold chunking_json.
  destruct (json_loads file_bytes) as [msg|data] eqn:Hload.
  - intros [= <-]. left. now exists msg.
  - destruct (json_items data) as [items|e'] eqn:Hitems; cbn [bind].
    + intros Hrun. right. right. exists data, items.
      pose proof (json_documents_length repr question_iter answer_iter tag source
                    items 1) as Hlen.
      destruct (json_documents repr question_iter answer_iter tag source 1 items)
        as [|c0 docs0]; [|discriminate].
      injection Hrun as <-.
      split; [assumption || reflexivity|].
      split; [assumption || reflexivity|]. split; [|reflexivity].
      destruct (filter (valid_item repr question_iter answer_iter) items);
        [reflexivity | discriminate].
    + intros [= <-]. right. left. exists data.
      split; [assumption || reflexivity|].
      destruct data as [| | | | |l|d]; cbn in Hitems;
        try (injection Hitems as <-; repeat split; discriminate);
        try discriminate.
      destruct (json_get "qa" d) as [[]|]; discriminate.
Qed.

Lemma chunking_json_errors_witness :
  (exists msg,
     Demo.json_loads "not json" = inl msg
     /\ ValueError "Invalid JSON file: Expecting value: line 1 column 1 (char 0)"
        = ValueError ("Invalid JSON file: " ++ msg))
  \/ (exists data,
        Demo.json_loads "not json" = inr data
        /\ (forall d, data <> JDict d) /\ (forall l, data <> JList l)
        /\ ValueError "Invalid JSON file: Expecting value: line 1 column 1 (char 0)"
           = ValueError "JSON must be dict or list[dict]")
  \/ (exists data items,
        Demo.json_loads "not json" = inr data /\ json_items data = Ok items
        /\ filter (valid_item Demo.repr Demo.question_iter Demo.answer_iter) items
           = []
        /\ ValueError "Invalid JSON file: Expecting value: line 1 column 1 (char 0)"
           = ValueError "No valid Q&A found in JSON").
Proof.
  apply (chunking_json_errors Demo.repr Demo.question_iter Demo.answer_iter
           Demo.json_loads "not json" "AI" "json").
  reflexivity.
Defined.
